(** * gsm/Modem.h: general GSM modem support

    A shallow embedding of the declarations and inline member functions of
    [src/targets/all/gsm/Modem.h]: the status enumerations, the packed
    [NetworkInfo] value, the AT call state of [Modem] with its inline
    configuration functions, the socket lookup and the default vendor hooks. *)

From Stdlib Require Import ZArith List Bool Lia.
Import ListNotations.

Local Open Scope Z_scope.

(** ** Status enumerations *)

Inductive ModemStatus := MS_Ok | MS_PowerOnFailure | MS_AutoBaudFailure | MS_CommandError.
Inductive GsmStatus := GS_Ok | GS_NoNetwork | GS_Roaming | GS_Searching.
Inductive SimStatus := SS_Ok | SS_NotInserted | SS_Locked | SS_BadPin.
Inductive TcpStatus := TS_Ok | TS_GprsError | TS_TlsError | TS_ConnectionError.

(** ** Bit-fields of one [unsigned] storage unit

    [unsigned f : w] placed [off] bits above the least significant bit of the
    word that holds it. A store keeps the low [w] bits of the value stored
    (conversion of an unsigned value to a narrower bit-field) and leaves the
    other bits of the word alone; a load returns the field zero-extended. *)

Module Bitfield.

Definition mask (off w : Z) : Z := Z.shiftl (Z.ones w) off.

Definition load (off w raw : Z) : Z := Z.land (Z.shiftr raw off) (Z.ones w).

Definition store (off w v raw : Z) : Z :=
  Z.lor (Z.land raw (Z.lnot (mask off w)))
        (Z.shiftl (Z.land v (Z.ones w)) off).

(** A word fits [W] bits when it is its own low [W] bits. *)
Definition fits (W x : Z) : Prop := Z.land x (Z.ones W) = x.

End Bitfield.

(** ** class NetworkInfo

    [union { struct { unsigned mcc : 10, mnc : 10, mncDigits : 4; }; unsigned raw; }]:
    the three fields share the word [raw], allocated from its least
    significant bit upwards in declaration order. *)

Record NetworkInfo := { raw : Z }.

Module NetInfo.

Definition mcc_off := 0.
Definition mcc_bits := 10.
Definition mnc_off := 10.
Definition mnc_bits := 10.
Definition mncDigits_off := 20.
Definition mncDigits_bits := 4.

(** [constexpr NetworkInfo(unsigned mcc, unsigned mnc, unsigned mncDigits)
      : mcc(mcc), mnc(mnc), mncDigits(mncDigits) {}]
    run on a storage word whose previous content is [w0]. *)
Definition init_fields (w0 mcc mnc mncDigits : Z) : NetworkInfo :=
  {| raw := Bitfield.store mncDigits_off mncDigits_bits mncDigits
              (Bitfield.store mnc_off mnc_bits mnc
                 (Bitfield.store mcc_off mcc_bits mcc w0)) |}.

(** The three-argument constructor run on storage that was all zero before.
    The constructor writes the three fields only: over other storage the
    eight bits above them keep what the storage held, see [init_fields]. *)
Definition make (mcc mnc mncDigits : Z) : NetworkInfo :=
  init_fields 0 mcc mnc mncDigits.

(** [constexpr NetworkInfo() : raw(0) {}] *)
Definition default : NetworkInfo := {| raw := 0 |}.

(** [unsigned Mcc() const { return mcc; }] and its two siblings. *)
Definition Mcc (n : NetworkInfo) : Z := Bitfield.load mcc_off mcc_bits (raw n).
Definition Mnc (n : NetworkInfo) : Z := Bitfield.load mnc_off mnc_bits (raw n).
Definition MncDigits (n : NetworkInfo) : Z :=
  Bitfield.load mncDigits_off mncDigits_bits (raw n).

(** The whole public interface after construction: three [const] member
    functions. A call hands back the result and the object it ran on. *)
Inductive Op := OpMcc | OpMnc | OpMncDigits.

Definition call (o : Op) (this : NetworkInfo) : Z * NetworkInfo :=
  match o with
  | OpMcc => (Mcc this, this)
  | OpMnc => (Mnc this, this)
  | OpMncDigits => (MncDigits this, this)
  end.

Fixpoint run (ops : list Op) (this : NetworkInfo) : list Z * NetworkInfo :=
  match ops with
  | [] => ([], this)
  | o :: rest =>
      let '(r, this1) := call o this in
      let '(rs, this2) := run rest this1 in
      (r :: rs, this2)
  end.

End NetInfo.

(** ** External collaborators

    [Modem.h] uses the kernel's [Timeout], the [AsyncDelegate<FNV1a>] callback
    type and the pipe types of [io/io.h] without declaring them. The embedding
    is parametric in them: only the operations the header calls are named. *)

Class Kernel := {
  Timeout : Type;
  (** [bool Timeout::IsRelative() const] *)
  Timeout_IsRelative : Timeout -> bool;
  (** [Timeout::Seconds(n)] *)
  Timeout_Seconds : Z -> Timeout;
  (** [Timeout::Infinite] *)
  Timeout_Infinite : Timeout;
  (** [AsyncDelegate<FNV1a>] *)
  AsyncDelegate : Type;
  PipeReader : Type;
  PipeWriter : Type;
  PipePosition : Type;
  PipeIterator : Type;
  (** the referent of [ModemOptions&] *)
  ModemOptionsRef : Type
}.

(** Object addresses; a nullable pointer is an [option ptr], [NULL] is [None]. *)
Definition ptr := N.

Definition ptr_eqb (a b : option ptr) : bool :=
  match a, b with
  | Some x, Some y => N.eqb x y
  | None, None => true
  | _, _ => false
  end.

(** [BIT(n)] *)
Definition BIT (n : Z) : Z := Z.shiftl 1 n.

(** [enum struct Signal] of [Modem], a flag enumeration. *)
Module Signal.
Definition None := 0.
Definition TaskActive := BIT 0.
Definition RxTaskActive := BIT 1.
Definition NetworkActive := BIT 2.
Definition ATLock := BIT 4.
End Signal.

(** [enum struct ATResult : int8_t] *)
Inductive ATResult :=
| AT_OK | AT_Error | AT_Timeout | AT_Failure
| AT_Pending | AT_PendingWasOK | AT_PendingWaitOK.

(** The enumerator values: the first four count up from zero, the pending
    ones are given explicitly. *)
Definition ATResult_value (r : ATResult) : Z :=
  match r with
  | AT_OK => 0
  | AT_Error => 1
  | AT_Timeout => 2
  | AT_Failure => 3
  | AT_Pending => -1
  | AT_PendingWasOK => -2
  | AT_PendingWaitOK => -3
  end.

Definition int8_range (z : Z) : Prop := -128 <= z <= 127.

Definition ATResult_eqb (a b : ATResult) : bool :=
  ATResult_value a =? ATResult_value b.

Definition ATResult_is_pending (r : ATResult) : bool := ATResult_value r <? 0.

(** ** class Socket *)

(** Modelled from the spec: class [Socket] of [Socket.h], which is not among
    the sources. The spec gives it a channel number, a secure flag and an
    allocation flag; [Modem.h] reads them as [s.channel], [s.IsSecure()] and
    [s.IsAllocated()]. *)
Record Socket := {
  channel : Z;
  secure : bool;
  allocated : bool
}.

Definition IsAllocated (s : Socket) : bool := allocated s.
Definition IsSecure (s : Socket) : bool := secure s.

(** [SelfLinkedList<Socket>]: the linked sockets in list order, each node with
    the address a [Socket*] to it holds. *)
Definition Pool := list (ptr * Socket).

(** [for (auto& s: sockets) { if (s.IsAllocated() && s.channel == channel) return &s; } return NULL;] *)
Fixpoint FindSocket_in (sockets : Pool) (chan : Z) : option ptr :=
  match sockets with
  | [] => None
  | (p, s) :: rest =>
      if IsAllocated s && (channel s =? chan) then Some p
      else FindSocket_in rest chan
  end.

(** [for (auto& s: sockets) { if (s.IsAllocated() && s.IsSecure() == secure && s.channel == channel) return &s; } return NULL;] *)
Fixpoint FindSocket_secure_in (sockets : Pool) (chan : Z) (sec : bool) : option ptr :=
  match sockets with
  | [] => None
  | (p, s) :: rest =>
      if IsAllocated s && Bool.eqb (IsSecure s) sec && (channel s =? chan) then Some p
      else FindSocket_secure_in rest chan sec
  end.

(** ** class Modem *)

Section ModemClass.
Context {K : Kernel}.

(** The data members, in declaration order. *)
Record Modem := {
  rx : PipeReader;
  tx : PipeWriter;
  options : ModemOptionsRef;
  sockets : Pool;
  signals : Z;
  process : bool;
  atResult : ATResult;
  lineEnd : PipePosition;
  lineFields : PipeIterator;
  atTask : option ptr;
  atNextTimeout : Timeout;
  atResponse : AsyncDelegate;
  atTransmitSock : option ptr;
  atTransmitLen : Z;
  rxSock : option ptr;
  rxLen : Z;
  modemStatus : ModemStatus;
  gsmStatus : GsmStatus;
  simStatus : SimStatus;
  tcpStatus : TcpStatus;
  netInfo : NetworkInfo;
  rssi : Z;
  atTimeout : Timeout;
  connectTimeout : Timeout;
  disconnectTimeout : Timeout;
  powerOffTimeout : Timeout
}.

(** What the constructor leaves to the default constructors of the pipe and
    kernel types, or does not initialise at all ([atTransmitSock],
    [atTransmitLen], [rxSock] have no initialiser). *)
Record Uninit := {
  u_lineEnd : PipePosition;
  u_lineFields : PipeIterator;
  u_atNextTimeout : Timeout;
  u_atResponse : AsyncDelegate;
  u_atTransmitSock : option ptr;
  u_atTransmitLen : Z;
  u_rxSock : option ptr
}.

(** [Modem(io::DuplexPipe pipe, ModemOptions& options) : rx(pipe), tx(pipe), options(options) {}]
    with the default member initialisers; [pipe_rx] and [pipe_tx] are the
    reader and the writer made from [pipe]. *)
Definition Modem_new (pipe_rx : PipeReader) (pipe_tx : PipeWriter)
    (opts : ModemOptionsRef) (u : Uninit) : Modem :=
  {| rx := pipe_rx; tx := pipe_tx; options := opts; sockets := [];
     signals := Signal.None;
     process := false; atResult := AT_OK;
     lineEnd := u_lineEnd u; lineFields := u_lineFields u;
     atTask := None;
     atNextTimeout := u_atNextTimeout u; atResponse := u_atResponse u;
     atTransmitSock := u_atTransmitSock u; atTransmitLen := u_atTransmitLen u;
     rxSock := u_rxSock u; rxLen := 0;
     modemStatus := MS_Ok; gsmStatus := GS_Ok; simStatus := SS_Ok;
     tcpStatus := TS_Ok;
     netInfo := NetInfo.default; rssi := 0;
     atTimeout := Timeout_Seconds 5; connectTimeout := Timeout_Seconds 30;
     disconnectTimeout := Timeout_Seconds 10;
     powerOffTimeout := Timeout_Infinite |}.

(** Assignments to single members. *)
Definition set_sockets (v : Pool) (m : Modem) : Modem :=
  {| rx := rx m; tx := tx m; options := options m; sockets := v;
     signals := signals m; process := process m; atResult := atResult m;
     lineEnd := lineEnd m; lineFields := lineFields m; atTask := atTask m;
     atNextTimeout := atNextTimeout m; atResponse := atResponse m;
     atTransmitSock := atTransmitSock m; atTransmitLen := atTransmitLen m;
     rxSock := rxSock m; rxLen := rxLen m;
     modemStatus := modemStatus m; gsmStatus := gsmStatus m;
     simStatus := simStatus m; tcpStatus := tcpStatus m;
     netInfo := netInfo m; rssi := rssi m;
     atTimeout := atTimeout m; connectTimeout := connectTimeout m;
     disconnectTimeout := disconnectTimeout m;
     powerOffTimeout := powerOffTimeout m |}.

Definition set_atTask (v : option ptr) (m : Modem) : Modem :=
  {| rx := rx m; tx := tx m; options := options m; sockets := sockets m;
     signals := signals m; process := process m; atResult := atResult m;
     lineEnd := lineEnd m; lineFields := lineFields m; atTask := v;
     atNextTimeout := atNextTimeout m; atResponse := atResponse m;
     atTransmitSock := atTransmitSock m; atTransmitLen := atTransmitLen m;
     rxSock := rxSock m; rxLen := rxLen m;
     modemStatus := modemStatus m; gsmStatus := gsmStatus m;
     simStatus := simStatus m; tcpStatus := tcpStatus m;
     netInfo := netInfo m; rssi := rssi m;
     atTimeout := atTimeout m; connectTimeout := connectTimeout m;
     disconnectTimeout := disconnectTimeout m;
     powerOffTimeout := powerOffTimeout m |}.

Definition set_atResult (v : ATResult) (m : Modem) : Modem :=
  {| rx := rx m; tx := tx m; options := options m; sockets := sockets m;
     signals := signals m; process := process m; atResult := v;
     lineEnd := lineEnd m; lineFields := lineFields m; atTask := atTask m;
     atNextTimeout := atNextTimeout m; atResponse := atResponse m;
     atTransmitSock := atTransmitSock m; atTransmitLen := atTransmitLen m;
     rxSock := rxSock m; rxLen := rxLen m;
     modemStatus := modemStatus m; gsmStatus := gsmStatus m;
     simStatus := simStatus m; tcpStatus := tcpStatus m;
     netInfo := netInfo m; rssi := rssi m;
     atTimeout := atTimeout m; connectTimeout := connectTimeout m;
     disconnectTimeout := disconnectTimeout m;
     powerOffTimeout := powerOffTimeout m |}.

Definition set_atNextTimeout (v : Timeout) (m : Modem) : Modem :=
  {| rx := rx m; tx := tx m; options := options m; sockets := sockets m;
     signals := signals m; process := process m; atResult := atResult m;
     lineEnd := lineEnd m; lineFields := lineFields m; atTask := atTask m;
     atNextTimeout := v; atResponse := atResponse m;
     atTransmitSock := atTransmitSock m; atTransmitLen := atTransmitLen m;
     rxSock := rxSock m; rxLen := rxLen m;
     modemStatus := modemStatus m; gsmStatus := gsmStatus m;
     simStatus := simStatus m; tcpStatus := tcpStatus m;
     netInfo := netInfo m; rssi := rssi m;
     atTimeout := atTimeout m; connectTimeout := connectTimeout m;
     disconnectTimeout := disconnectTimeout m;
     powerOffTimeout := powerOffTimeout m |}.

Definition set_atResponse (v : AsyncDelegate) (m : Modem) : Modem :=
  {| rx := rx m; tx := tx m; options := options m; sockets := sockets m;
     signals := signals m; process := process m; atResult := atResult m;
     lineEnd := lineEnd m; lineFields := lineFields m; atTask := atTask m;
     atNextTimeout := atNextTimeout m; atResponse := v;
     atTransmitSock := atTransmitSock m; atTransmitLen := atTransmitLen m;
     rxSock := rxSock m; rxLen := rxLen m;
     modemStatus := modemStatus m; gsmStatus := gsmStatus m;
     simStatus := simStatus m; tcpStatus := tcpStatus m;
     netInfo := netInfo m; rssi := rssi m;
     atTimeout := atTimeout m; connectTimeout := connectTimeout m;
     disconnectTimeout := disconnectTimeout m;
     powerOffTimeout := powerOffTimeout m |}.

Definition set_atTransmitSock (v : option ptr) (m : Modem) : Modem :=
  {| rx := rx m; tx := tx m; options := options m; sockets := sockets m;
     signals := signals m; process := process m; atResult := atResult m;
     lineEnd := lineEnd m; lineFields := lineFields m; atTask := atTask m;
     atNextTimeout := atNextTimeout m; atResponse := atResponse m;
     atTransmitSock := v; atTransmitLen := atTransmitLen m;
     rxSock := rxSock m; rxLen := rxLen m;
     modemStatus := modemStatus m; gsmStatus := gsmStatus m;
     simStatus := simStatus m; tcpStatus := tcpStatus m;
     netInfo := netInfo m; rssi := rssi m;
     atTimeout := atTimeout m; connectTimeout := connectTimeout m;
     disconnectTimeout := disconnectTimeout m;
     powerOffTimeout := powerOffTimeout m |}.

Definition set_atTransmitLen (v : Z) (m : Modem) : Modem :=
  {| rx := rx m; tx := tx m; options := options m; sockets := sockets m;
     signals := signals m; process := process m; atResult := atResult m;
     lineEnd := lineEnd m; lineFields := lineFields m; atTask := atTask m;
     atNextTimeout := atNextTimeout m; atResponse := atResponse m;
     atTransmitSock := atTransmitSock m; atTransmitLen := v;
     rxSock := rxSock m; rxLen := rxLen m;
     modemStatus := modemStatus m; gsmStatus := gsmStatus m;
     simStatus := simStatus m; tcpStatus := tcpStatus m;
     netInfo := netInfo m; rssi := rssi m;
     atTimeout := atTimeout m; connectTimeout := connectTimeout m;
     disconnectTimeout := disconnectTimeout m;
     powerOffTimeout := powerOffTimeout m |}.

Definition set_atTimeout (v : Timeout) (m : Modem) : Modem :=
  {| rx := rx m; tx := tx m; options := options m; sockets := sockets m;
     signals := signals m; process := process m; atResult := atResult m;
     lineEnd := lineEnd m; lineFields := lineFields m; atTask := atTask m;
     atNextTimeout := atNextTimeout m; atResponse := atResponse m;
     atTransmitSock := atTransmitSock m; atTransmitLen := atTransmitLen m;
     rxSock := rxSock m; rxLen := rxLen m;
     modemStatus := modemStatus m; gsmStatus := gsmStatus m;
     simStatus := simStatus m; tcpStatus := tcpStatus m;
     netInfo := netInfo m; rssi := rssi m;
     atTimeout := v; connectTimeout := connectTimeout m;
     disconnectTimeout := disconnectTimeout m;
     powerOffTimeout := powerOffTimeout m |}.

Definition set_connectTimeout (v : Timeout) (m : Modem) : Modem :=
  {| rx := rx m; tx := tx m; options := options m; sockets := sockets m;
     signals := signals m; process := process m; atResult := atResult m;
     lineEnd := lineEnd m; lineFields := lineFields m; atTask := atTask m;
     atNextTimeout := atNextTimeout m; atResponse := atResponse m;
     atTransmitSock := atTransmitSock m; atTransmitLen := atTransmitLen m;
     rxSock := rxSock m; rxLen := rxLen m;
     modemStatus := modemStatus m; gsmStatus := gsmStatus m;
     simStatus := simStatus m; tcpStatus := tcpStatus m;
     netInfo := netInfo m; rssi := rssi m;
     atTimeout := atTimeout m; connectTimeout := v;
     disconnectTimeout := disconnectTimeout m;
     powerOffTimeout := powerOffTimeout m |}.

Definition set_disconnectTimeout (v : Timeout) (m : Modem) : Modem :=
  {| rx := rx m; tx := tx m; options := options m; sockets := sockets m;
     signals := signals m; process := process m; atResult := atResult m;
     lineEnd := lineEnd m; lineFields := lineFields m; atTask := atTask m;
     atNextTimeout := atNextTimeout m; atResponse := atResponse m;
     atTransmitSock := atTransmitSock m; atTransmitLen := atTransmitLen m;
     rxSock := rxSock m; rxLen := rxLen m;
     modemStatus := modemStatus m; gsmStatus := gsmStatus m;
     simStatus := simStatus m; tcpStatus := tcpStatus m;
     netInfo := netInfo m; rssi := rssi m;
     atTimeout := atTimeout m; connectTimeout := connectTimeout m;
     disconnectTimeout := v;
     powerOffTimeout := powerOffTimeout m |}.

Definition set_powerOffTimeout (v : Timeout) (m : Modem) : Modem :=
  {| rx := rx m; tx := tx m; options := options m; sockets := sockets m;
     signals := signals m; process := process m; atResult := atResult m;
     lineEnd := lineEnd m; lineFields := lineFields m; atTask := atTask m;
     atNextTimeout := atNextTimeout m; atResponse := atResponse m;
     atTransmitSock := atTransmitSock m; atTransmitLen := atTransmitLen m;
     rxSock := rxSock m; rxLen := rxLen m;
     modemStatus := modemStatus m; gsmStatus := gsmStatus m;
     simStatus := simStatus m; tcpStatus := tcpStatus m;
     netInfo := netInfo m; rssi := rssi m;
     atTimeout := atTimeout m; connectTimeout := connectTimeout m;
     disconnectTimeout := disconnectTimeout m;
     powerOffTimeout := v |}.

(** *** Naming the members

    [Member] names each data member and [member_view] reads it, so that "no
    member other than these changed" can be said of two objects. *)
Inductive Member :=
| M_rx | M_tx | M_options | M_sockets | M_signals | M_process | M_atResult
| M_lineEnd | M_lineFields | M_atTask | M_atNextTimeout | M_atResponse
| M_atTransmitSock | M_atTransmitLen | M_rxSock | M_rxLen
| M_modemStatus | M_gsmStatus | M_simStatus | M_tcpStatus | M_netInfo | M_rssi
| M_atTimeout | M_connectTimeout | M_disconnectTimeout | M_powerOffTimeout.

Inductive View :=
| V_reader (v : PipeReader) | V_writer (v : PipeWriter)
| V_options (v : ModemOptionsRef) | V_pool (v : Pool)
| V_int (v : Z) | V_bool (v : bool) | V_result (v : ATResult)
| V_position (v : PipePosition) | V_iterator (v : PipeIterator)
| V_ptr (v : option ptr) | V_timeout (v : Timeout)
| V_delegate (v : AsyncDelegate)
| V_modem (v : ModemStatus) | V_gsm (v : GsmStatus)
| V_sim (v : SimStatus) | V_tcp (v : TcpStatus)
| V_netinfo (v : NetworkInfo).

Definition member_view (f : Member) (m : Modem) : View :=
  match f with
  | M_rx => V_reader (rx m)
  | M_tx => V_writer (tx m)
  | M_options => V_options (options m)
  | M_sockets => V_pool (sockets m)
  | M_signals => V_int (signals m)
  | M_process => V_bool (process m)
  | M_atResult => V_result (atResult m)
  | M_lineEnd => V_position (lineEnd m)
  | M_lineFields => V_iterator (lineFields m)
  | M_atTask => V_ptr (atTask m)
  | M_atNextTimeout => V_timeout (atNextTimeout m)
  | M_atResponse => V_delegate (atResponse m)
  | M_atTransmitSock => V_ptr (atTransmitSock m)
  | M_atTransmitLen => V_int (atTransmitLen m)
  | M_rxSock => V_ptr (rxSock m)
  | M_rxLen => V_int (rxLen m)
  | M_modemStatus => V_modem (modemStatus m)
  | M_gsmStatus => V_gsm (gsmStatus m)
  | M_simStatus => V_sim (simStatus m)
  | M_tcpStatus => V_tcp (tcpStatus m)
  | M_netInfo => V_netinfo (netInfo m)
  | M_rssi => V_int (rssi m)
  | M_atTimeout => V_timeout (atTimeout m)
  | M_connectTimeout => V_timeout (connectTimeout m)
  | M_disconnectTimeout => V_timeout (disconnectTimeout m)
  | M_powerOffTimeout => V_timeout (powerOffTimeout m)
  end.

(** [m'] differs from [m] at most in the members listed in [changed]. *)
Definition unchanged_except (changed : list Member) (m m' : Modem) : Prop :=
  forall f, ~ In f changed -> member_view f m' = member_view f m.

(** *** Member functions as state transformers

    A non-[const] member function maps the object to the value returned and
    the object afterwards; it yields nothing when an [ASSERT] in it fails. *)
Definition method (A : Type) : Type := Modem -> option (A * Modem).

Definition ret {A} (a : A) : method A := fun m => Some (a, m).

Definition bind {A B} (c : method A) (k : A -> method B) : method B :=
  fun m => match c m with
           | Some (a, m1) => k a m1
           | None => None
           end.

(** [ASSERT(cond)] *)
Definition ASSERT (cond : Modem -> bool) : method unit :=
  fun m => if cond m then Some (tt, m) else None.

(** [member = value;] *)
Definition assign (upd : Modem -> Modem) : method unit :=
  fun m => Some (tt, upd m).

End ModemClass.

Notation "c1 ;; c2" := (bind c1 (fun _ => c2))
  (at level 61, right associativity).

Section ModemMembers.
Context {K : Kernel}.

(** *** Status accessors *)

Definition get_ModemStatus (m : Modem) : ModemStatus := modemStatus m.
Definition get_GsmStatus (m : Modem) : GsmStatus := gsmStatus m.
Definition get_SimStatus (m : Modem) : SimStatus := simStatus m.
Definition get_TcpStatus (m : Modem) : TcpStatus := tcpStatus m.
Definition get_NetworkInfo (m : Modem) : NetworkInfo := netInfo m.

(** [bool IsActive() const { return !!(signals & Signal::TaskActive); }] *)
Definition IsActive (m : Modem) : bool :=
  negb (Z.land (signals m) Signal.TaskActive =? 0).

(** [int Rssi() const { return rssi; }] *)
Definition Rssi (m : Modem) : Z := rssi m.

(** *** Timeouts: [Timeout XTimeout() const] and [void XTimeout(Timeout timeout)] *)

Definition ATTimeout (m : Modem) : Timeout := atTimeout m.
Definition ConnectTimeout (m : Modem) : Timeout := connectTimeout m.
Definition DisconnectTimeout (m : Modem) : Timeout := disconnectTimeout m.
Definition PowerOffTimeout (m : Modem) : Timeout := powerOffTimeout m.

(** [{ ASSERT(timeout.IsRelative()); atTimeout = timeout; }] *)
Definition set_ATTimeout (timeout : Timeout) : method unit :=
  ASSERT (fun _ => Timeout_IsRelative timeout) ;;
  assign (set_atTimeout timeout).

(** [{ ASSERT(timeout.IsRelative()); connectTimeout = timeout; }] *)
Definition set_ConnectTimeout (timeout : Timeout) : method unit :=
  ASSERT (fun _ => Timeout_IsRelative timeout) ;;
  assign (set_connectTimeout timeout).

(** [{ ASSERT(timeout.IsRelative()); disconnectTimeout = timeout; }] *)
Definition set_DisconnectTimeout (timeout : Timeout) : method unit :=
  ASSERT (fun _ => Timeout_IsRelative timeout) ;;
  assign (set_disconnectTimeout timeout).

(** [{ ASSERT(timeout.IsRelative()); powerOffTimeout = timeout; }] *)
Definition set_PowerOffTimeout (timeout : Timeout) : method unit :=
  ASSERT (fun _ => Timeout_IsRelative timeout) ;;
  assign (set_powerOffTimeout timeout).

(** *** Configuration of the next AT call

    [cur] is [&kernel::Task::Current()], the address of the running task. *)

(** [{ ASSERT(atTask == &kernel::Task::Current()); atNextTimeout = timeout; return false; }] *)
Definition NextATTimeout (cur : ptr) (timeout : Timeout) : method bool :=
  ASSERT (fun m => ptr_eqb (atTask m) (Some cur)) ;;
  assign (set_atNextTimeout timeout) ;;
  ret false.

(** [{ ASSERT(atTask == &kernel::Task::Current()); atResponse = handler; return false; }] *)
Definition NextATResponse (cur : ptr) (handler : AsyncDelegate) : method bool :=
  ASSERT (fun m => ptr_eqb (atTask m) (Some cur)) ;;
  assign (set_atResponse handler) ;;
  ret false.

(** [{ ASSERT(atTask == &kernel::Task::Current()); atTransmitSock = &sock; atTransmitLen = len; return false; }] *)
Definition NextATTransmit (cur : ptr) (sock : ptr) (len : Z) : method bool :=
  ASSERT (fun m => ptr_eqb (atTask m) (Some cur)) ;;
  assign (set_atTransmitSock (Some sock)) ;;
  assign (set_atTransmitLen len) ;;
  ret false.

(** [void ATComplete() { ASSERT(atResult == ATResult::Pending); atResult = ATResult::OK; }] *)
Definition ATComplete : method unit :=
  ASSERT (fun m => ATResult_eqb (atResult m) AT_Pending) ;;
  assign (set_atResult AT_OK).

(** *** Socket lookup *)

(** [Socket* FindSocket(uint8_t channel)] *)
Definition FindSocket (m : Modem) (chan : Z) : option ptr :=
  FindSocket_in (sockets m) chan.

(** [Socket* FindSocket(uint8_t channel, bool secure)] *)
Definition FindSocket_secure (m : Modem) (chan : Z) (sec : bool) : option ptr :=
  FindSocket_secure_in (sockets m) chan sec.

(** *** Default vendor hooks

    [async_def_return(value)] gives an async function the body that completes
    at once with [value]; it touches no member. *)
Definition async_def_return (value : bool) : method bool := ret value.

Definition PowerOnImpl : method bool := async_def_return true.
Definition PowerOffImpl : method bool := async_def_return true.
Definition StartImpl : method bool := async_def_return true.
Definition UnlockSimImpl : method bool := async_def_return true.
Definition ConnectNetworkImpl : method bool := async_def_return true.
Definition DisconnectNetworkImpl : method bool := async_def_return true.
Definition StopImpl : method bool := async_def_return true.
(** [virtual async(OnEvent, FNV1a id) async_def_return(true);] *)
Definition OnEvent (id : Z) : method bool := async_def_return true.

(** The hooks with a default body, by name. *)
Inductive DefaultHook :=
| HPowerOn | HPowerOff | HStart | HUnlockSim
| HConnectNetwork | HDisconnectNetwork | HStop
| HOnEvent (id : Z).

Definition default_hook (h : DefaultHook) : method bool :=
  match h with
  | HPowerOn => PowerOnImpl
  | HPowerOff => PowerOffImpl
  | HStart => StartImpl
  | HUnlockSim => UnlockSimImpl
  | HConnectNetwork => ConnectNetworkImpl
  | HDisconnectNetwork => DisconnectNetworkImpl
  | HStop => StopImpl
  | HOnEvent id => OnEvent id
  end.

End ModemMembers.

(** ** The socket pool: allocation, release, destruction

    [CreateSocket], [ReleaseSocket] and [DestroySocket] are declared in
    [Modem.h] and defined in a file that is not among the sources. *)

Definition set_channel (c : Z) (s : Socket) : Socket :=
  {| channel := c; secure := secure s; allocated := allocated s |}.

Definition set_allocated (a : bool) (s : Socket) : Socket :=
  {| channel := channel s; secure := secure s; allocated := a |}.

(** Modelled from the spec: the [Socket] that [CreateSocket] constructs
    before a channel is reserved for it, bound to the security flag and not
    yet allocated. *)
Definition Socket_new (tls : bool) : Socket :=
  {| channel := 0; secure := tls; allocated := false |}.

(** The allocated sockets of the pool that hold the pair [(chan, sec)]. *)
Definition holds (chan : Z) (sec : bool) (node : ptr * Socket) : bool :=
  IsAllocated (snd node) && Bool.eqb (IsSecure (snd node)) sec
  && (channel (snd node) =? chan).

Definition holders (chan : Z) (sec : bool) (pool : Pool) : Pool :=
  filter (holds chan sec) pool.

(** At most one allocated socket holds any given (channel, secure) pair. *)
Definition pair_unique (pool : Pool) : Prop :=
  forall chan sec, (length (holders chan sec pool) <= 1)%nat.

Section SocketPool.

(** [virtual bool TryAllocateImpl(Socket& sock) = 0;] the vendor hook: it sees
    the modem's pool, may write to [sock], and answers whether a channel was
    reserved. *)
Variable TryAllocateImpl : Pool -> Socket -> bool * Socket.

(** Modelled from the spec: [Socket* Modem::CreateSocket(Span host, uint32_t port, bool tls)],
    whose body is not among the sources. It "attempts to reserve a free
    channel via the vendor-specific allocation hook, constructs a Socket
    bound to that channel/security flag, links it into the pool, and returns
    a reference. Fails (returns a null indicator) if no channel is available
    or the hook rejects the request", and then leaves the pool as it was.
    [fresh] is the address the new object gets. *)
Definition CreateSocket (fresh : ptr) (host : list Byte.byte) (port : Z)
    (tls : bool) (pool : Pool) : option ptr * Pool :=
  let '(ok, sock) := TryAllocateImpl pool (Socket_new tls) in
  if ok then (Some fresh, pool ++ [(fresh, set_allocated true sock)])
  else (None, pool).

(** Modelled from the spec: [void Modem::ReleaseSocket(Socket* sock)], whose
    body is not among the sources: it "returns a socket to the free pool
    without destroying bookkeeping". The socket stays linked and is no
    longer allocated. *)
Definition ReleaseSocket (sock : ptr) (pool : Pool) : Pool :=
  map (fun node => if N.eqb (fst node) sock
                   then (fst node, set_allocated false (snd node))
                   else node) pool.

(** Modelled from the spec: [void Modem::DestroySocket(Socket* sock)], whose
    body is not among the sources: it "fully tears it down". The socket is
    unlinked from the pool. *)
Definition DestroySocket (sock : ptr) (pool : Pool) : Pool :=
  filter (fun node => negb (N.eqb (fst node) sock)) pool.

(** The pools a modem can get to: empty at construction, then any sequence
    of the three operations; a created socket gets an address no linked
    socket has. *)
Inductive reachable : Pool -> Prop :=
| reach_new : reachable []
| reach_create pool fresh host port tls :
    reachable pool -> ~ In fresh (map fst pool) ->
    reachable (snd (CreateSocket fresh host port tls pool))
| reach_release pool sock :
    reachable pool -> reachable (ReleaseSocket sock pool)
| reach_destroy pool sock :
    reachable pool -> reachable (DestroySocket sock pool).

(** Modelled from the spec: what the spec asks of the vendor hook, to
    "reserve a free channel": when it accepts, no allocated socket of the
    pool holds the channel it wrote to the socket under that socket's
    security flag. *)
Definition reserves_free_channel : Prop :=
  forall pool s s',
    TryAllocateImpl pool s = (true, s') ->
    holders (channel s') (IsSecure s') pool = [].

End SocketPool.

(** A vendor hook for a modem with [limit] channels per security flag: the
    lowest channel that no allocated socket with the same flag holds. *)
Definition lowest_free (limit : nat) (sec : bool) (pool : Pool) : option nat :=
  find (fun c => match holders (Z.of_nat c) sec pool with
                 | [] => true
                 | _ :: _ => false
                 end) (seq 0 limit).

Definition TryAllocate_lowest (limit : nat) (pool : Pool) (s : Socket)
    : bool * Socket :=
  match lowest_free limit (IsSecure s) pool with
  | Some c => (true, set_channel (Z.of_nat c) s)
  | None => (false, s)
  end.

(** ** Sample objects for the closed examples *)

Inductive SampleTimeout :=
| ST_Relative (ms : Z)
| ST_Absolute (instant : Z)
| ST_Infinite.

(** A kernel to run the embedding on: durations in milliseconds, callbacks
    named by a number, and pipes without content. *)
Definition sample_kernel : Kernel :=
  {| Timeout := SampleTimeout;
     Timeout_IsRelative := fun t => match t with
                                    | ST_Absolute _ => false
                                    | _ => true
                                    end;
     Timeout_Seconds := fun n => ST_Relative (1000 * n);
     Timeout_Infinite := ST_Infinite;
     AsyncDelegate := Z;
     PipeReader := unit;
     PipeWriter := unit;
     PipePosition := unit;
     PipeIterator := unit;
     ModemOptionsRef := unit |}.

Definition sample_uninit : Uninit (K := sample_kernel) :=
  Build_Uninit (K := sample_kernel)
    tt tt (ST_Relative 0) 0 None 0 None.

Definition sample_modem : Modem (K := sample_kernel) :=
  Modem_new (K := sample_kernel) tt tt tt sample_uninit.

(** The sample modem after [task] took the AT lock, with an AT call in state
    [res] and the sockets [pool] linked. *)
Definition sample_state (task : option ptr) (res : ATResult) (pool : Pool)
    : Modem (K := sample_kernel) :=
  set_sockets pool (set_atTask task (set_atResult res sample_modem)).

(** The bytes of "example.com". *)
Definition example_host : list Byte.byte :=
  [Byte.x65; Byte.x78; Byte.x61; Byte.x6d; Byte.x70; Byte.x6c; Byte.x65;
   Byte.x2e; Byte.x63; Byte.x6f; Byte.x6d].

(** One plain and one TLS socket created on an empty pool of a modem with
    six channels per security flag. *)
Definition pool_plain : Pool :=
  snd (CreateSocket (TryAllocate_lowest 6) 100%N example_host 80 false []).

Definition pool_plain_tls : Pool :=
  snd (CreateSocket (TryAllocate_lowest 6) 200%N example_host 443 true pool_plain).

(** A vendor hook that accepts every request and reserves nothing: the
    socket keeps the channel it was constructed with. *)
Definition TryAllocate_any (pool : Pool) (s : Socket) : bool * Socket :=
  (true, s).

(** Two plain sockets created one after the other under that hook. *)
Definition pool_clash : Pool :=
  snd (CreateSocket TryAllocate_any 101%N example_host 80 false
         (snd (CreateSocket TryAllocate_any 100%N example_host 80 false []))).

(** Task 7 holds the AT lock, its call is pending, and both sockets are linked. *)
Definition sample_locked : Modem (K := sample_kernel) :=
  sample_state (Some 7%N) AT_Pending pool_plain_tls.

(** ** Further inline members of [Modem] *)

Section ModemMutators.
Context {K : Kernel}.

(** Assignments to the remaining members the header writes. *)
Definition set_process (v : bool) (m : Modem) : Modem :=
  {| rx := rx m; tx := tx m; options := options m; sockets := sockets m;
     signals := signals m; process := v; atResult := atResult m;
     lineEnd := lineEnd m; lineFields := lineFields m; atTask := atTask m;
     atNextTimeout := atNextTimeout m; atResponse := atResponse m;
     atTransmitSock := atTransmitSock m; atTransmitLen := atTransmitLen m;
     rxSock := rxSock m; rxLen := rxLen m;
     modemStatus := modemStatus m; gsmStatus := gsmStatus m;
     simStatus := simStatus m; tcpStatus := tcpStatus m;
     netInfo := netInfo m; rssi := rssi m;
     atTimeout := atTimeout m; connectTimeout := connectTimeout m;
     disconnectTimeout := disconnectTimeout m;
     powerOffTimeout := powerOffTimeout m |}.

Definition set_rxSock (v : option ptr) (m : Modem) : Modem :=
  {| rx := rx m; tx := tx m; options := options m; sockets := sockets m;
     signals := signals m; process := process m; atResult := atResult m;
     lineEnd := lineEnd m; lineFields := lineFields m; atTask := atTask m;
     atNextTimeout := atNextTimeout m; atResponse := atResponse m;
     atTransmitSock := atTransmitSock m; atTransmitLen := atTransmitLen m;
     rxSock := v; rxLen := rxLen m;
     modemStatus := modemStatus m; gsmStatus := gsmStatus m;
     simStatus := simStatus m; tcpStatus := tcpStatus m;
     netInfo := netInfo m; rssi := rssi m;
     atTimeout := atTimeout m; connectTimeout := connectTimeout m;
     disconnectTimeout := disconnectTimeout m;
     powerOffTimeout := powerOffTimeout m |}.

Definition set_rxLen (v : Z) (m : Modem) : Modem :=
  {| rx := rx m; tx := tx m; options := options m; sockets := sockets m;
     signals := signals m; process := process m; atResult := atResult m;
     lineEnd := lineEnd m; lineFields := lineFields m; atTask := atTask m;
     atNextTimeout := atNextTimeout m; atResponse := atResponse m;
     atTransmitSock := atTransmitSock m; atTransmitLen := atTransmitLen m;
     rxSock := rxSock m; rxLen := v;
     modemStatus := modemStatus m; gsmStatus := gsmStatus m;
     simStatus := simStatus m; tcpStatus := tcpStatus m;
     netInfo := netInfo m; rssi := rssi m;
     atTimeout := atTimeout m; connectTimeout := connectTimeout m;
     disconnectTimeout := disconnectTimeout m;
     powerOffTimeout := powerOffTimeout m |}.

Definition set_modemStatus (v : ModemStatus) (m : Modem) : Modem :=
  {| rx := rx m; tx := tx m; options := options m; sockets := sockets m;
     signals := signals m; process := process m; atResult := atResult m;
     lineEnd := lineEnd m; lineFields := lineFields m; atTask := atTask m;
     atNextTimeout := atNextTimeout m; atResponse := atResponse m;
     atTransmitSock := atTransmitSock m; atTransmitLen := atTransmitLen m;
     rxSock := rxSock m; rxLen := rxLen m;
     modemStatus := v; gsmStatus := gsmStatus m;
     simStatus := simStatus m; tcpStatus := tcpStatus m;
     netInfo := netInfo m; rssi := rssi m;
     atTimeout := atTimeout m; connectTimeout := connectTimeout m;
     disconnectTimeout := disconnectTimeout m;
     powerOffTimeout := powerOffTimeout m |}.

Definition set_gsmStatus (v : GsmStatus) (m : Modem) : Modem :=
  {| rx := rx m; tx := tx m; options := options m; sockets := sockets m;
     signals := signals m; process := process m; atResult := atResult m;
     lineEnd := lineEnd m; lineFields := lineFields m; atTask := atTask m;
     atNextTimeout := atNextTimeout m; atResponse := atResponse m;
     atTransmitSock := atTransmitSock m; atTransmitLen := atTransmitLen m;
     rxSock := rxSock m; rxLen := rxLen m;
     modemStatus := modemStatus m; gsmStatus := v;
     simStatus := simStatus m; tcpStatus := tcpStatus m;
     netInfo := netInfo m; rssi := rssi m;
     atTimeout := atTimeout m; connectTimeout := connectTimeout m;
     disconnectTimeout := disconnectTimeout m;
     powerOffTimeout := powerOffTimeout m |}.

Definition set_simStatus (v : SimStatus) (m : Modem) : Modem :=
  {| rx := rx m; tx := tx m; options := options m; sockets := sockets m;
     signals := signals m; process := process m; atResult := atResult m;
     lineEnd := lineEnd m; lineFields := lineFields m; atTask := atTask m;
     atNextTimeout := atNextTimeout m; atResponse := atResponse m;
     atTransmitSock := atTransmitSock m; atTransmitLen := atTransmitLen m;
     rxSock := rxSock m; rxLen := rxLen m;
     modemStatus := modemStatus m; gsmStatus := gsmStatus m;
     simStatus := v; tcpStatus := tcpStatus m;
     netInfo := netInfo m; rssi := rssi m;
     atTimeout := atTimeout m; connectTimeout := connectTimeout m;
     disconnectTimeout := disconnectTimeout m;
     powerOffTimeout := powerOffTimeout m |}.

Definition set_tcpStatus (v : TcpStatus) (m : Modem) : Modem :=
  {| rx := rx m; tx := tx m; options := options m; sockets := sockets m;
     signals := signals m; process := process m; atResult := atResult m;
     lineEnd := lineEnd m; lineFields := lineFields m; atTask := atTask m;
     atNextTimeout := atNextTimeout m; atResponse := atResponse m;
     atTransmitSock := atTransmitSock m; atTransmitLen := atTransmitLen m;
     rxSock := rxSock m; rxLen := rxLen m;
     modemStatus := modemStatus m; gsmStatus := gsmStatus m;
     simStatus := simStatus m; tcpStatus := v;
     netInfo := netInfo m; rssi := rssi m;
     atTimeout := atTimeout m; connectTimeout := connectTimeout m;
     disconnectTimeout := disconnectTimeout m;
     powerOffTimeout := powerOffTimeout m |}.

Definition set_netInfo (v : NetworkInfo) (m : Modem) : Modem :=
  {| rx := rx m; tx := tx m; options := options m; sockets := sockets m;
     signals := signals m; process := process m; atResult := atResult m;
     lineEnd := lineEnd m; lineFields := lineFields m; atTask := atTask m;
     atNextTimeout := atNextTimeout m; atResponse := atResponse m;
     atTransmitSock := atTransmitSock m; atTransmitLen := atTransmitLen m;
     rxSock := rxSock m; rxLen := rxLen m;
     modemStatus := modemStatus m; gsmStatus := gsmStatus m;
     simStatus := simStatus m; tcpStatus := tcpStatus m;
     netInfo := v; rssi := rssi m;
     atTimeout := atTimeout m; connectTimeout := connectTimeout m;
     disconnectTimeout := disconnectTimeout m;
     powerOffTimeout := powerOffTimeout m |}.

Definition set_rssi (v : Z) (m : Modem) : Modem :=
  {| rx := rx m; tx := tx m; options := options m; sockets := sockets m;
     signals := signals m; process := process m; atResult := atResult m;
     lineEnd := lineEnd m; lineFields := lineFields m; atTask := atTask m;
     atNextTimeout := atNextTimeout m; atResponse := atResponse m;
     atTransmitSock := atTransmitSock m; atTransmitLen := atTransmitLen m;
     rxSock := rxSock m; rxLen := rxLen m;
     modemStatus := modemStatus m; gsmStatus := gsmStatus m;
     simStatus := simStatus m; tcpStatus := tcpStatus m;
     netInfo := netInfo m; rssi := v;
     atTimeout := atTimeout m; connectTimeout := connectTimeout m;
     disconnectTimeout := disconnectTimeout m;
     powerOffTimeout := powerOffTimeout m |}.

(** [void ModemStatus(enum ModemStatus status) { modemStatus = status; }] *)
Definition set_ModemStatus (status : ModemStatus) : method unit :=
  assign (set_modemStatus status).

(** [void GsmStatus(enum GsmStatus status) { gsmStatus = status; }] *)
Definition set_GsmStatus (status : GsmStatus) : method unit :=
  assign (set_gsmStatus status).

(** [void SimStatus(enum SimStatus status) { simStatus = status; }] *)
Definition set_SimStatus (status : SimStatus) : method unit :=
  assign (set_simStatus status).

(** [void TcpStatus(enum TcpStatus status) { tcpStatus = status; }] *)
Definition set_TcpStatus (status : TcpStatus) : method unit :=
  assign (set_tcpStatus status).

(** [void NetworkInfo(const class NetworkInfo& info) { netInfo = info; }] *)
Definition set_NetworkInfo (info : NetworkInfo) : method unit :=
  assign (set_netInfo info).

(** [void Rssi(int8_t value) { rssi = value; }]; [value] is an [int8_t]. *)
Definition set_Rssi (value : Z) : method unit :=
  assign (set_rssi value).

(** [void RequestProcessing() { process = true; }] *)
Definition RequestProcessing : method unit :=
  assign (set_process true).

(** [void ReceiveForSocket(Socket* sock, size_t len) { rxSock = sock; rxLen = len; }] *)
Definition ReceiveForSocket (sock : option ptr) (len : Z) : method unit :=
  assign (set_rxSock sock) ;;
  assign (set_rxLen len).

(** [SelfLinkedList<Socket>& Sockets() { return sockets; }] *)
Definition Sockets (m : Modem) : Pool := sockets m.

(** *** The four timeouts by name *)

Inductive TimeoutKind := TK_AT | TK_Connect | TK_Disconnect | TK_PowerOff.

Definition TimeoutKind_eqb (a b : TimeoutKind) : bool :=
  match a, b with
  | TK_AT, TK_AT | TK_Connect, TK_Connect
  | TK_Disconnect, TK_Disconnect | TK_PowerOff, TK_PowerOff => true
  | _, _ => false
  end.

Definition get_timeout (k : TimeoutKind) (m : Modem) : Timeout :=
  match k with
  | TK_AT => ATTimeout m
  | TK_Connect => ConnectTimeout m
  | TK_Disconnect => DisconnectTimeout m
  | TK_PowerOff => PowerOffTimeout m
  end.

Definition set_timeout (k : TimeoutKind) (timeout : Timeout) : method unit :=
  match k with
  | TK_AT => set_ATTimeout timeout
  | TK_Connect => set_ConnectTimeout timeout
  | TK_Disconnect => set_DisconnectTimeout timeout
  | TK_PowerOff => set_PowerOffTimeout timeout
  end.

(** A caller running the setters one after the other. *)
Fixpoint set_timeouts (calls : list (TimeoutKind * Timeout)) : method unit :=
  match calls with
  | [] => ret tt
  | (k, timeout) :: rest => set_timeout k timeout ;; set_timeouts rest
  end.

(** The argument of the last call in [calls] that went to the setter [k]. *)
Fixpoint last_set (k : TimeoutKind) (calls : list (TimeoutKind * Timeout))
    : option Timeout :=
  match calls with
  | [] => None
  | (k', timeout) :: rest =>
      match last_set k rest with
      | Some later => Some later
      | None => if TimeoutKind_eqb k k' then Some timeout else None
      end
  end.

(** *** Chaining the configuration of the next AT call

    The header has the three functions return [false] so that a caller can
    write them between [ATLock()] and the command in one [||] expression. *)

(** [a || b] on two calls: [b] runs only when [a] returned [false]. *)
Definition orelse (a b : method bool) : method bool :=
  bind a (fun r => if r then ret true else b).

Inductive Config :=
| CfgTimeout (timeout : Timeout)
| CfgResponse (handler : AsyncDelegate)
| CfgTransmit (sock : ptr) (len : Z).

Definition configure (cur : ptr) (c : Config) : method bool :=
  match c with
  | CfgTimeout timeout => NextATTimeout cur timeout
  | CfgResponse handler => NextATResponse cur handler
  | CfgTransmit sock len => NextATTransmit cur sock len
  end.

(** [c1 || c2 || ... || command] *)
Fixpoint chain (cur : ptr) (cs : list Config) (command : method bool)
    : method bool :=
  match cs with
  | [] => command
  | c :: rest => orelse (configure cur c) (chain cur rest command)
  end.

(** *** The inline member functions that write to the object *)

Inductive Inline :=
| I_ATTimeout (timeout : Timeout)
| I_ConnectTimeout (timeout : Timeout)
| I_DisconnectTimeout (timeout : Timeout)
| I_PowerOffTimeout (timeout : Timeout)
| I_NextATTimeout (timeout : Timeout)
| I_NextATResponse (handler : AsyncDelegate)
| I_NextATTransmit (sock : ptr) (len : Z)
| I_ATComplete
| I_ReceiveForSocket (sock : option ptr) (len : Z)
| I_ModemStatus (status : ModemStatus)
| I_GsmStatus (status : GsmStatus)
| I_SimStatus (status : SimStatus)
| I_TcpStatus (status : TcpStatus)
| I_NetworkInfo (info : NetworkInfo)
| I_Rssi (value : Z)
| I_RequestProcessing
| I_Hook (h : DefaultHook).

(** A call of one of them by the task [cur], its return value dropped. *)
Definition discard {A} (c : method A) : method unit := c ;; ret tt.

Definition exec (cur : ptr) (op : Inline) : method unit :=
  match op with
  | I_ATTimeout timeout => set_ATTimeout timeout
  | I_ConnectTimeout timeout => set_ConnectTimeout timeout
  | I_DisconnectTimeout timeout => set_DisconnectTimeout timeout
  | I_PowerOffTimeout timeout => set_PowerOffTimeout timeout
  | I_NextATTimeout timeout => discard (NextATTimeout cur timeout)
  | I_NextATResponse handler => discard (NextATResponse cur handler)
  | I_NextATTransmit sock len => discard (NextATTransmit cur sock len)
  | I_ATComplete => ATComplete
  | I_ReceiveForSocket sock len => ReceiveForSocket sock len
  | I_ModemStatus status => set_ModemStatus status
  | I_GsmStatus status => set_GsmStatus status
  | I_SimStatus status => set_SimStatus status
  | I_TcpStatus status => set_TcpStatus status
  | I_NetworkInfo info => set_NetworkInfo info
  | I_Rssi value => set_Rssi value
  | I_RequestProcessing => RequestProcessing
  | I_Hook h => discard (default_hook h)
  end.

Fixpoint exec_all (cur : ptr) (ops : list Inline) : method unit :=
  match ops with
  | [] => ret tt
  | op :: rest => exec cur op ;; exec_all cur rest
  end.

End ModemMutators.

(** The condition each lookup loop tests on a linked socket. *)
Definition matches (chan : Z) (s : Socket) : bool :=
  IsAllocated s && (channel s =? chan).

Definition matches_secure (chan : Z) (sec : bool) (s : Socket) : bool :=
  IsAllocated s && Bool.eqb (IsSecure s) sec && (channel s =? chan).

(** The members written by the timeout setters, by the configuration of the
    next AT call, and by any inline member function. *)
Definition timeout_members : list Member :=
  [M_atTimeout; M_connectTimeout; M_disconnectTimeout; M_powerOffTimeout].

Definition config_members : list Member :=
  [M_atNextTimeout; M_atResponse; M_atTransmitSock; M_atTransmitLen].

Definition written_members : list Member :=
  [M_process; M_atResult; M_atNextTimeout; M_atResponse; M_atTransmitSock;
   M_atTransmitLen; M_rxSock; M_rxLen; M_modemStatus; M_gsmStatus;
   M_simStatus; M_tcpStatus; M_netInfo; M_rssi; M_atTimeout;
   M_connectTimeout; M_disconnectTimeout; M_powerOffTimeout].
(** ** Bit-field lemmas *)

Module BitfieldFacts.
Import Bitfield.

Lemma testbit_mask off w i :
  0 <= off -> 0 <= w -> 0 <= i ->
  Z.testbit (mask off w) i = (off <=? i) && (i <? off + w).
Proof.
  intros Hoff Hw Hi. unfold mask.
  rewrite Z.shiftl_spec by lia.
  destruct (Z.leb_spec off i) as [Hle | Hlt]; simpl.
  - destruct (Z.ltb_spec i (off + w)) as [Hin | Hout].
    + apply Z.ones_spec_low. lia.
    + apply Z.ones_spec_high. lia.
  - apply Z.testbit_neg_r. lia.
Qed.

Lemma testbit_load off w raw i :
  0 <= off -> 0 <= w -> 0 <= i ->
  Z.testbit (load off w raw) i = Z.testbit raw (i + off) && (i <? w).
Proof.
  intros Hoff Hw Hi. unfold load.
  rewrite Z.land_spec, Z.shiftr_spec by lia.
  destruct (Z.ltb_spec i w) as [Hin | Hout].
  - rewrite Z.ones_spec_low by lia. reflexivity.
  - rewrite Z.ones_spec_high by lia. reflexivity.
Qed.

Lemma testbit_store off w v raw i :
  0 <= off -> 0 <= w -> 0 <= i ->
  Z.testbit (store off w v raw) i =
    if (off <=? i) && (i <? off + w) then Z.testbit v (i - off)
    else Z.testbit raw i.
Proof.
  intros Hoff Hw Hi. unfold store.
  rewrite Z.lor_spec, Z.land_spec, Z.lnot_spec, testbit_mask by lia.
  rewrite Z.shiftl_spec by lia.
  destruct (Z.leb_spec off i) as [Hle | Hlt]; simpl.
  - destruct (Z.ltb_spec i (off + w)) as [Hin | Hout]; simpl.
    + rewrite Z.land_spec, Z.ones_spec_low by lia.
      rewrite andb_false_r, andb_true_r. reflexivity.
    + rewrite Z.land_spec, Z.ones_spec_high by lia.
      rewrite andb_true_r, andb_false_r, orb_false_r. reflexivity.
  - rewrite (Z.testbit_neg_r _ (i - off)) by lia.
    rewrite andb_true_r, orb_false_r. reflexivity.
Qed.

(** A load of the field just stored yields the stored value modulo [2^w]. *)
Lemma load_store_same off w v raw :
  0 <= off -> 0 <= w ->
  load off w (store off w v raw) = v mod 2 ^ w.
Proof.
  intros Hoff Hw. rewrite <- Z.land_ones by lia.
  apply Z.bits_inj'. intros i Hi.
  rewrite testbit_load, testbit_store, Z.land_spec by lia.
  destruct (Z.ltb_spec i w) as [Hin | Hout].
  - rewrite Z.ones_spec_low by lia.
    replace (off <=? i + off) with true by (symmetry; apply Z.leb_le; lia).
    replace (i + off <? off + w) with true by (symmetry; apply Z.ltb_lt; lia).
    simpl. replace (i + off - off) with i by lia. reflexivity.
  - rewrite Z.ones_spec_high by lia. rewrite !andb_false_r. reflexivity.
Qed.

(** A store to a field that does not overlap leaves the loaded field as it was. *)
Lemma load_store_other off w off' w' v raw :
  0 <= off -> 0 <= w -> 0 <= off' -> 0 <= w' ->
  off + w <= off' \/ off' + w' <= off ->
  load off w (store off' w' v raw) = load off w raw.
Proof.
  intros Hoff Hw Hoff' Hw' Hdisj.
  apply Z.bits_inj'. intros i Hi.
  rewrite !testbit_load, testbit_store by lia.
  destruct (Z.ltb_spec i w) as [Hin | Hout].
  - replace ((off' <=? i + off) && (i + off <? off' + w')) with false; [reflexivity|].
    symmetry. apply andb_false_iff.
    destruct Hdisj; [left; apply Z.leb_gt | right; apply Z.ltb_ge]; lia.
  - rewrite !andb_false_r. reflexivity.
Qed.

Lemma load_zero off w : load off w 0 = 0.
Proof.
  unfold load. rewrite Z.shiftr_0_l. apply Z.land_0_l.
Qed.


Lemma fits_bound W x : 0 <= W -> fits W x -> 0 <= x < 2 ^ W.
Proof.
  unfold fits. intros HW Hx. rewrite Z.land_ones in Hx by lia.
  rewrite <- Hx. apply Z.mod_pos_bound. apply Z.pow_pos_nonneg; lia.
Qed.

Lemma fits_zero W : fits W 0.
Proof. apply Z.land_0_l. Qed.

(** A store to a field inside the low [W] bits keeps the word in [W] bits. *)
Lemma fits_store W off w v raw :
  0 <= off -> 0 <= w -> off + w <= W ->
  fits W raw -> fits W (store off w v raw).
Proof.
  unfold fits. intros Hoff Hw HW Hraw.
  apply Z.bits_inj'. intros i Hi.
  rewrite Z.land_spec, testbit_store by lia.
  destruct (Z.ltb_spec i W) as [Hin | Hout].
  - rewrite Z.ones_spec_low by lia. apply andb_true_r.
  - rewrite Z.ones_spec_high by lia. rewrite andb_false_r.
    replace ((off <=? i) && (i <? off + w)) with false.
    + rewrite <- Hraw, Z.land_spec, Z.ones_spec_high by lia.
      symmetry. apply andb_false_r.
    + symmetry. apply andb_false_iff. right. apply Z.ltb_ge. lia.
Qed.

End BitfieldFacts.

(** ** NetworkInfo *)

Section NetworkInfoFacts.
Import NetInfo.

Lemma Mcc_init_fields w0 mcc mnc digits :
  Mcc (init_fields w0 mcc mnc digits) = mcc mod 2 ^ 10.
Proof.
  unfold Mcc, init_fields; simpl.
  rewrite !BitfieldFacts.load_store_other
    by (unfold mcc_off, mcc_bits, mnc_off, mnc_bits,
          mncDigits_off, mncDigits_bits; lia).
  apply BitfieldFacts.load_store_same; unfold mcc_off, mcc_bits; lia.
Qed.

Lemma Mnc_init_fields w0 mcc mnc digits :
  Mnc (init_fields w0 mcc mnc digits) = mnc mod 2 ^ 10.
Proof.
  unfold Mnc, init_fields; simpl.
  rewrite BitfieldFacts.load_store_other
    by (unfold mnc_off, mnc_bits, mncDigits_off, mncDigits_bits; lia).
  apply BitfieldFacts.load_store_same; unfold mnc_off, mnc_bits; lia.
Qed.

Lemma MncDigits_init_fields w0 mcc mnc digits :
  MncDigits (init_fields w0 mcc mnc digits) = digits mod 2 ^ 4.
Proof.
  unfold MncDigits, init_fields; simpl.
  apply BitfieldFacts.load_store_same;
    unfold mncDigits_off, mncDigits_bits; lia.
Qed.

Lemma make_word mcc mnc digits : 0 <= raw (make mcc mnc digits) < 2 ^ 32.
Proof.
  apply BitfieldFacts.fits_bound; [lia|].
  unfold make, init_fields; simpl.
  repeat (apply BitfieldFacts.fits_store;
          [unfold mcc_off, mnc_off, mncDigits_off; lia
          |unfold mcc_bits, mnc_bits, mncDigits_bits; lia
          |unfold mcc_off, mcc_bits, mnc_off, mnc_bits,
             mncDigits_off, mncDigits_bits; lia
          |]).
  apply BitfieldFacts.fits_zero.
Qed.

Lemma run_keeps_object ops : forall this, snd (run ops this) = this.
Proof.
  induction ops as [|o rest IH]; intros this; simpl.
  - reflexivity.
  - destruct o; simpl;
      (destruct (run rest this) as [rs this2] eqn:E;
       simpl; specialize (IH this); rewrite E in IH; exact IH).
Qed.

(** C9. [NetworkInfo(mcc, mnc, digits)] keeps the low 10 bits of [mcc], the
    low 10 bits of [mnc] and the low 4 bits of [digits] in one 32-bit word:
    [Mcc()] returns [mcc mod 2^10], [Mnc()] returns [mnc mod 2^10] and
    [MncDigits()] returns [digits mod 2^4]. The default-constructed value
    returns 0 for all three. The interface after construction is the three
    [const] accessors, and no sequence of calls to them changes the object. *)
Theorem NetworkInfo_packed mcc mnc digits :
  Mcc (make mcc mnc digits) = mcc mod 2 ^ 10
  /\ Mnc (make mcc mnc digits) = mnc mod 2 ^ 10
  /\ MncDigits (make mcc mnc digits) = digits mod 2 ^ 4
  /\ 0 <= raw (make mcc mnc digits) < 2 ^ 32
  /\ (Mcc default = 0 /\ Mnc default = 0 /\ MncDigits default = 0)
  /\ (forall ops this, snd (run ops this) = this).
Proof.
  split; [apply Mcc_init_fields|].
  split; [apply Mnc_init_fields|].
  split; [apply MncDigits_init_fields|].
  split; [apply make_word|].
  split.
  - unfold Mcc, Mnc, MncDigits, default; simpl.
    rewrite !BitfieldFacts.load_zero. auto.
  - intros ops this. apply run_keeps_object.
Qed.

Example NetworkInfo_231_01 :
  Mcc (make 231 1 2) = 231 /\ Mnc (make 231 1 2) = 1
  /\ MncDigits (make 231 1 2) = 2 /\ raw (make 231 1 2) = 2098407.
Proof. repeat split; reflexivity. Qed.

Example NetworkInfo_truncates :
  Mcc (make 1025 2047 17) = 1 /\ Mnc (make 1025 2047 17) = 1023
  /\ MncDigits (make 1025 2047 17) = 1.
Proof. repeat split; reflexivity. Qed.

End NetworkInfoFacts.

(** ** Modem: construction, accessors, AT call configuration *)

Section ModemFacts.
Context {K : Kernel}.

Ltac frame_members :=
  let f := fresh "f" in
  let Hf := fresh "Hf" in
  intros f Hf; destruct f; try reflexivity;
  exfalso; apply Hf; simpl; tauto.

Lemma ptr_eqb_eq (a b : option ptr) : ptr_eqb a b = true <-> a = b.
Proof.
  destruct a as [x|], b as [y|]; simpl; split; intros H;
    try discriminate; try reflexivity.
  - apply N.eqb_eq in H. subst. reflexivity.
  - inversion H. apply N.eqb_refl.
Qed.

Lemma ptr_eqb_neq (a b : option ptr) : a <> b -> ptr_eqb a b = false.
Proof.
  intros Hne. destruct (ptr_eqb a b) eqn:E; [|reflexivity].
  apply ptr_eqb_eq in E. contradiction.
Qed.

Lemma ATResult_value_inj a b : ATResult_value a = ATResult_value b -> a = b.
Proof. destruct a, b; simpl; intros H; try reflexivity; discriminate. Qed.

Lemma ATResult_eqb_eq a b : ATResult_eqb a b = true <-> a = b.
Proof.
  unfold ATResult_eqb. rewrite Z.eqb_eq. split.
  - apply ATResult_value_inj.
  - intros ->. reflexivity.
Qed.

(** C10. A modem just constructed: the four status fields read [Ok], no
    signal flag is set and [IsActive()] is false, [Rssi()] is 0,
    [NetworkInfo()] is the all-zero value, and the timeouts are 5 s (AT),
    30 s (connect), 10 s (disconnect) and infinite (power-off). *)
Theorem Modem_new_defaults pipe_rx pipe_tx opts u :
  get_ModemStatus (Modem_new pipe_rx pipe_tx opts u) = MS_Ok
  /\ get_GsmStatus (Modem_new pipe_rx pipe_tx opts u) = GS_Ok
  /\ get_SimStatus (Modem_new pipe_rx pipe_tx opts u) = SS_Ok
  /\ get_TcpStatus (Modem_new pipe_rx pipe_tx opts u) = TS_Ok
  /\ signals (Modem_new pipe_rx pipe_tx opts u) = Signal.None
  /\ (forall flag, Z.land (signals (Modem_new pipe_rx pipe_tx opts u)) flag = 0)
  /\ IsActive (Modem_new pipe_rx pipe_tx opts u) = false
  /\ Rssi (Modem_new pipe_rx pipe_tx opts u) = 0
  /\ raw (get_NetworkInfo (Modem_new pipe_rx pipe_tx opts u)) = 0
  /\ NetInfo.Mcc (get_NetworkInfo (Modem_new pipe_rx pipe_tx opts u)) = 0
  /\ NetInfo.Mnc (get_NetworkInfo (Modem_new pipe_rx pipe_tx opts u)) = 0
  /\ NetInfo.MncDigits (get_NetworkInfo (Modem_new pipe_rx pipe_tx opts u)) = 0
  /\ ATTimeout (Modem_new pipe_rx pipe_tx opts u) = Timeout_Seconds 5
  /\ ConnectTimeout (Modem_new pipe_rx pipe_tx opts u) = Timeout_Seconds 30
  /\ DisconnectTimeout (Modem_new pipe_rx pipe_tx opts u) = Timeout_Seconds 10
  /\ PowerOffTimeout (Modem_new pipe_rx pipe_tx opts u) = Timeout_Infinite.
Proof. repeat split; reflexivity. Qed.

(** C8. Each default hook ([PowerOnImpl], [PowerOffImpl], [StartImpl],
    [UnlockSimImpl], [ConnectNetworkImpl], [DisconnectNetworkImpl],
    [StopImpl], and [OnEvent] for every event id) completes with [true] on
    every modem state and hands the modem back as it was. *)
Theorem default_hooks_succeed (h : DefaultHook) (m : Modem) :
  default_hook h m = Some (true, m).
Proof. destruct h; reflexivity. Qed.

Lemma ASSERT_holds (cond : Modem -> bool) {A} (k : method A) m :
  cond m = true -> (ASSERT cond ;; k) m = k m.
Proof. intros H. unfold bind, ASSERT. rewrite H. reflexivity. Qed.

Lemma ASSERT_fails (cond : Modem -> bool) {A} (k : method A) m :
  cond m = false -> (ASSERT cond ;; k) m = None.
Proof. intros H. unfold bind, ASSERT. rewrite H. reflexivity. Qed.

(** C1. The three configuration functions of the next AT call assert that
    the running task [cur] is the recorded owner [atTask]. When it is not,
    the assertion fails in each. When it is, for every argument each returns
    [false] and assigns its own members only: [atNextTimeout]; [atResponse];
    [atTransmitSock] and [atTransmitLen]. *)
Theorem NextAT_owner_only (cur : ptr) (m : Modem) :
  (atTask m <> Some cur ->
     (forall timeout, NextATTimeout cur timeout m = None)
     /\ (forall handler, NextATResponse cur handler m = None)
     /\ (forall sock len, NextATTransmit cur sock len m = None))
  /\ (atTask m = Some cur ->
     (forall timeout, exists m',
         NextATTimeout cur timeout m = Some (false, m')
         /\ atNextTimeout m' = timeout
         /\ unchanged_except [M_atNextTimeout] m m')
     /\ (forall handler, exists m',
         NextATResponse cur handler m = Some (false, m')
         /\ atResponse m' = handler
         /\ unchanged_except [M_atResponse] m m')
     /\ (forall sock len, exists m',
         NextATTransmit cur sock len m = Some (false, m')
         /\ atTransmitSock m' = Some sock
         /\ atTransmitLen m' = len
         /\ unchanged_except [M_atTransmitSock; M_atTransmitLen] m m')).
Proof.
  split.
  - intros Hne. apply ptr_eqb_neq in Hne.
    repeat split; intros; apply ASSERT_fails; exact Hne.
  - intros Hown. apply ptr_eqb_eq in Hown.
    split; [|split].
    + intros timeout. exists (set_atNextTimeout timeout m).
      unfold NextATTimeout. rewrite ASSERT_holds by exact Hown.
      split; [reflexivity|]. split; [reflexivity|]. frame_members.
    + intros handler. exists (set_atResponse handler m).
      unfold NextATResponse. rewrite ASSERT_holds by exact Hown.
      split; [reflexivity|]. split; [reflexivity|]. frame_members.
    + intros sock len.
      exists (set_atTransmitLen len (set_atTransmitSock (Some sock) m)).
      unfold NextATTransmit. rewrite ASSERT_holds by exact Hown.
      split; [reflexivity|]. split; [reflexivity|].
      split; [reflexivity|]. frame_members.
Qed.

(** C2. [ATResult] is a signed 8-bit code: [OK], [Error], [Timeout] and
    [Failure] are the values 0 to 3, and [Pending], [PendingWasOK] and
    [PendingWaitOK] are the negative values -1, -2 and -3, so the sign tells
    the pending sub-states from the terminal ones and the seven are distinct.
    [ATComplete] asserts that the result is [Pending]: on any other result
    the assertion fails, and on [Pending] it sets the result to [OK] and
    changes no other member. *)
Theorem ATResult_ATComplete :
  (forall r, int8_range (ATResult_value r))
  /\ (forall r, ATResult_is_pending r = true <->
                r = AT_Pending \/ r = AT_PendingWasOK \/ r = AT_PendingWaitOK)
  /\ (forall r, ATResult_is_pending r = false <->
                r = AT_OK \/ r = AT_Error \/ r = AT_Timeout \/ r = AT_Failure)
  /\ (forall a b, ATResult_value a = ATResult_value b -> a = b)
  /\ (forall m : Modem,
        (atResult m <> AT_Pending -> ATComplete m = None)
        /\ (atResult m = AT_Pending ->
            exists m', ATComplete m = Some (tt, m')
                       /\ atResult m' = AT_OK
                       /\ unchanged_except [M_atResult] m m')).
Proof.
  split; [intros r; unfold int8_range; destruct r; simpl; lia|].
  split.
  { intros r; split.
    - destruct r; simpl; intros H; try discriminate; auto.
    - intros [H | [H | H]]; subst; reflexivity. }
  split.
  { intros r; split.
    - destruct r; simpl; intros H; try discriminate; auto.
    - intros [H | [H | [H | H]]]; subst; reflexivity. }
  split; [apply ATResult_value_inj|].
  intros m. split.
  - intros Hne. apply ASSERT_fails.
    destruct (ATResult_eqb (atResult m) AT_Pending) eqn:E; [|reflexivity].
    apply ATResult_eqb_eq in E. contradiction.
  - intros Hp. exists (set_atResult AT_OK m).
    unfold ATComplete. rewrite ASSERT_holds by (apply ATResult_eqb_eq; exact Hp).
    split; [reflexivity|]. split; [reflexivity|]. frame_members.
Qed.

(** C7. Each of the four timeout setters asserts [timeout.IsRelative()].
    For every [timeout] that passes it, the setter stores [timeout] in its
    own member, the matching getter then returns [timeout], and no other
    member changes, the other three timeouts among them. *)
Theorem timeouts_independent (timeout : Timeout) (m : Modem) :
  Timeout_IsRelative timeout = true ->
  (exists m', set_ATTimeout timeout m = Some (tt, m')
      /\ ATTimeout m' = timeout
      /\ ConnectTimeout m' = ConnectTimeout m
      /\ DisconnectTimeout m' = DisconnectTimeout m
      /\ PowerOffTimeout m' = PowerOffTimeout m
      /\ unchanged_except [M_atTimeout] m m')
  /\ (exists m', set_ConnectTimeout timeout m = Some (tt, m')
      /\ ConnectTimeout m' = timeout
      /\ ATTimeout m' = ATTimeout m
      /\ DisconnectTimeout m' = DisconnectTimeout m
      /\ PowerOffTimeout m' = PowerOffTimeout m
      /\ unchanged_except [M_connectTimeout] m m')
  /\ (exists m', set_DisconnectTimeout timeout m = Some (tt, m')
      /\ DisconnectTimeout m' = timeout
      /\ ATTimeout m' = ATTimeout m
      /\ ConnectTimeout m' = ConnectTimeout m
      /\ PowerOffTimeout m' = PowerOffTimeout m
      /\ unchanged_except [M_disconnectTimeout] m m')
  /\ (exists m', set_PowerOffTimeout timeout m = Some (tt, m')
      /\ PowerOffTimeout m' = timeout
      /\ ATTimeout m' = ATTimeout m
      /\ ConnectTimeout m' = ConnectTimeout m
      /\ DisconnectTimeout m' = DisconnectTimeout m
      /\ unchanged_except [M_powerOffTimeout] m m').
Proof.
  intros Hrel.
  split; [|split; [|split]].
  - exists (set_atTimeout timeout m). unfold set_ATTimeout.
    rewrite ASSERT_holds by exact Hrel.
    repeat (split; [reflexivity|]). frame_members.
  - exists (set_connectTimeout timeout m). unfold set_ConnectTimeout.
    rewrite ASSERT_holds by exact Hrel.
    repeat (split; [reflexivity|]). frame_members.
  - exists (set_disconnectTimeout timeout m). unfold set_DisconnectTimeout.
    rewrite ASSERT_holds by exact Hrel.
    repeat (split; [reflexivity|]). frame_members.
  - exists (set_powerOffTimeout timeout m). unfold set_PowerOffTimeout.
    rewrite ASSERT_holds by exact Hrel.
    repeat (split; [reflexivity|]). frame_members.
Qed.

(** A timeout that is not relative stops each setter at its assertion. *)
Lemma timeout_setters_assert (timeout : Timeout) (m : Modem) :
  Timeout_IsRelative timeout = false ->
  set_ATTimeout timeout m = None
  /\ set_ConnectTimeout timeout m = None
  /\ set_DisconnectTimeout timeout m = None
  /\ set_PowerOffTimeout timeout m = None.
Proof.
  intros Habs. repeat split; apply ASSERT_fails; exact Habs.
Qed.

End ModemFacts.

(** ** Socket lookup *)

Section LookupFacts.

Lemma FindSocket_in_sound pool chan p :
  FindSocket_in pool chan = Some p ->
  exists s, In (p, s) pool /\ IsAllocated s = true /\ channel s = chan.
Proof.
  induction pool as [|[q s] rest IH]; simpl; intros H.
  - discriminate.
  - destruct (IsAllocated s && (channel s =? chan)) eqn:E.
    + inversion H; subst q. apply andb_true_iff in E as [Ha Hc].
      apply Z.eqb_eq in Hc. exists s. auto.
    + destruct (IH H) as [s' [Hin Hs']]. exists s'. auto.
Qed.

Lemma FindSocket_secure_in_sound pool chan sec p :
  FindSocket_secure_in pool chan sec = Some p ->
  exists s, In (p, s) pool /\ IsAllocated s = true
            /\ IsSecure s = sec /\ channel s = chan.
Proof.
  induction pool as [|[q s] rest IH]; simpl; intros H.
  - discriminate.
  - destruct (IsAllocated s && Bool.eqb (IsSecure s) sec && (channel s =? chan)) eqn:E.
    + inversion H; subst q.
      apply andb_true_iff in E as [E Hc]. apply andb_true_iff in E as [Ha Hs].
      apply Z.eqb_eq in Hc. apply Bool.eqb_prop in Hs. exists s. auto.
    + destruct (IH H) as [s' [Hin Hs']]. exists s'. auto.
Qed.

(** [NULL] is returned only when no linked socket matches. *)
Lemma FindSocket_in_none pool chan :
  FindSocket_in pool chan = None ->
  forall p s, In (p, s) pool -> IsAllocated s = true -> channel s <> chan.
Proof.
  induction pool as [|[q s0] rest IH]; simpl; intros H p s Hin Ha Hc.
  - contradiction.
  - destruct (IsAllocated s0 && (channel s0 =? chan)) eqn:E; [discriminate|].
    destruct Hin as [Heq | Hin].
    + inversion Heq; subst. rewrite Ha, Z.eqb_refl in E. discriminate.
    + exact (IH H p s Hin Ha Hc).
Qed.

Lemma FindSocket_secure_in_none pool chan sec :
  FindSocket_secure_in pool chan sec = None ->
  forall p s, In (p, s) pool -> IsAllocated s = true ->
              IsSecure s = sec -> channel s <> chan.
Proof.
  induction pool as [|[q s0] rest IH]; simpl; intros H p s Hin Ha Hs Hc.
  - contradiction.
  - destruct (IsAllocated s0 && Bool.eqb (IsSecure s0) sec && (channel s0 =? chan)) eqn:E;
      [discriminate|].
    destruct Hin as [Heq | Hin].
    + inversion Heq; subst.
      rewrite Ha, Bool.eqb_reflx, Z.eqb_refl in E. discriminate.
    + exact (IH H p s Hin Ha Hs Hc).
Qed.

(** With one node per address, an address names one socket. *)
Lemma node_at_address (pool : Pool) p s s' :
  NoDup (map fst pool) -> In (p, s) pool -> In (p, s') pool -> s = s'.
Proof.
  induction pool as [|[q s0] rest IH]; simpl; intros Hnd H1 H2.
  - contradiction.
  - inversion Hnd as [|? ? Hq Hrest]; subst.
    destruct H1 as [E1 | H1], H2 as [E2 | H2].
    + congruence.
    + inversion E1; subst. exfalso. apply Hq.
      apply (in_map fst) in H2. exact H2.
    + inversion E2; subst. exfalso. apply Hq.
      apply (in_map fst) in H1. exact H1.
    + exact (IH Hrest H1 H2).
Qed.

Context {K : Kernel}.

(** C3. [FindSocket(c)] returns [NULL] or the address of a linked socket that
    is allocated and has channel [c]; [FindSocket(c, secure)] returns
    [NULL] or the address of a linked socket that is allocated, has channel
    [c] and has the given secure flag. Where every linked socket has its
    own address, the socket at the returned address is that one, so neither
    overload returns an unallocated socket. *)
Theorem FindSocket_allocated (m : Modem) (chan : Z) (sec : bool) :
  (FindSocket m chan = None
   \/ exists p s, FindSocket m chan = Some p /\ In (p, s) (sockets m)
                  /\ IsAllocated s = true /\ channel s = chan)
  /\ (FindSocket_secure m chan sec = None
      \/ exists p s, FindSocket_secure m chan sec = Some p
                     /\ In (p, s) (sockets m) /\ IsAllocated s = true
                     /\ channel s = chan /\ IsSecure s = sec)
  /\ (NoDup (map fst (sockets m)) ->
      forall p s, In (p, s) (sockets m) ->
        (FindSocket m chan = Some p ->
           IsAllocated s = true /\ channel s = chan)
        /\ (FindSocket_secure m chan sec = Some p ->
           IsAllocated s = true /\ channel s = chan /\ IsSecure s = sec)).
Proof.
  unfold FindSocket, FindSocket_secure.
  split; [|split].
  - destruct (FindSocket_in (sockets m) chan) as [p|] eqn:E; [right | left; reflexivity].
    destruct (FindSocket_in_sound _ _ _ E) as [s [Hin [Ha Hc]]].
    exists p, s. auto.
  - destruct (FindSocket_secure_in (sockets m) chan sec) as [p|] eqn:E;
      [right | left; reflexivity].
    destruct (FindSocket_secure_in_sound _ _ _ _ E) as [s [Hin [Ha [Hs Hc]]]].
    exists p, s. auto.
  - intros Hnd p s Hin. split; intros E.
    + destruct (FindSocket_in_sound _ _ _ E) as [s' [Hin' [Ha Hc]]].
      rewrite (node_at_address _ _ _ _ Hnd Hin Hin'). auto.
    + destruct (FindSocket_secure_in_sound _ _ _ _ E) as [s' [Hin' [Ha [Hs Hc]]]].
      rewrite (node_at_address _ _ _ _ Hnd Hin Hin'). auto.
Qed.

End LookupFacts.

(** ** The socket pool *)

Section PoolFacts.

Lemma holders_app chan sec (a b : Pool) :
  holders chan sec (a ++ b) = holders chan sec a ++ holders chan sec b.
Proof. apply filter_app. Qed.

(** Rewriting nodes so that no new holder appears cannot add holders. *)
Lemma holders_map_le chan sec (g : ptr * Socket -> ptr * Socket) (pool : Pool) :
  (forall node, holds chan sec (g node) = true -> holds chan sec node = true) ->
  (length (holders chan sec (map g pool)) <= length (holders chan sec pool))%nat.
Proof.
  intros Hg. induction pool as [|node rest IH]; simpl; [lia|].
  destruct (holds chan sec (g node)) eqn:E.
  - rewrite (Hg node E). simpl. lia.
  - destruct (holds chan sec node); simpl; lia.
Qed.

Lemma holders_filter_le chan sec (keep : ptr * Socket -> bool) (pool : Pool) :
  (length (holders chan sec (filter keep pool)) <= length (holders chan sec pool))%nat.
Proof.
  induction pool as [|node rest IH]; simpl; [lia|].
  destruct (keep node); simpl; destruct (holds chan sec node); simpl; lia.
Qed.

Lemma holders_release_le chan sec sock pool :
  (length (holders chan sec (ReleaseSocket sock pool))
   <= length (holders chan sec pool))%nat.
Proof.
  apply holders_map_le. intros node. cbv beta.
  destruct (N.eqb _ sock); [|auto].
  unfold holds, IsAllocated; simpl. discriminate.
Qed.

Lemma holders_destroy_le chan sec sock pool :
  (length (holders chan sec (DestroySocket sock pool))
   <= length (holders chan sec pool))%nat.
Proof. apply holders_filter_le. Qed.

Lemma holds_inv chan sec node :
  holds chan sec node = true ->
  IsAllocated (snd node) = true /\ IsSecure (snd node) = sec
  /\ channel (snd node) = chan.
Proof.
  unfold holds. intros H.
  apply andb_true_iff in H as [H Hc]. apply andb_true_iff in H as [Ha Hs].
  apply Z.eqb_eq in Hc. apply Bool.eqb_prop in Hs. auto.
Qed.

Section WithHook.
Variable TryAllocateImpl : Pool -> Socket -> bool * Socket.
Hypothesis hook_reserves : reserves_free_channel TryAllocateImpl.

Lemma pair_unique_create fresh host port tls pool :
  pair_unique pool ->
  pair_unique (snd (CreateSocket TryAllocateImpl fresh host port tls pool)).
Proof.
  intros Hinv chan sec. unfold CreateSocket.
  destruct (TryAllocateImpl pool (Socket_new tls)) as [ok sock] eqn:E.
  destruct ok; simpl; [|apply Hinv].
  rewrite holders_app, length_app. simpl.
  destruct (holds chan sec (fresh, set_allocated true sock)) eqn:Hh; simpl.
  - apply holds_inv in Hh as [_ [Hs Hc]]. simpl in Hs, Hc.
    pose proof (hook_reserves _ _ _ E) as Hfree.
    unfold IsSecure in *. rewrite Hs, Hc in Hfree. rewrite Hfree. simpl. lia.
  - specialize (Hinv chan sec). lia.
Qed.

Lemma reachable_pair_unique pool :
  reachable TryAllocateImpl pool -> pair_unique pool.
Proof.
  induction 1 as [| pool fresh host port tls _ IH _
                  | pool sock _ IH | pool sock _ IH].
  - intros chan sec. simpl. lia.
  - apply pair_unique_create. exact IH.
  - intros chan sec. specialize (IH chan sec).
    pose proof (holders_release_le chan sec sock pool). lia.
  - intros chan sec. specialize (IH chan sec).
    pose proof (holders_destroy_le chan sec sock pool). lia.
Qed.

End WithHook.

Lemma TryAllocate_lowest_reserves limit :
  reserves_free_channel (TryAllocate_lowest limit).
Proof.
  intros pool s s'. unfold TryAllocate_lowest, lowest_free.
  destruct (find _ (seq 0 limit)) as [c|] eqn:E; intros H; [|discriminate].
  inversion H; subst s'. apply find_some in E as [_ Hc].
  change (holders (Z.of_nat c) (IsSecure s) pool = []).
  destruct (holders (Z.of_nat c) (IsSecure s) pool); [reflexivity | discriminate].
Qed.

End PoolFacts.

(** ** Claims on the socket pool *)

Section PoolClaims.

Example pool_plain_tls_nodes :
  pool_plain_tls =
    [(100%N, {| channel := 0; secure := false; allocated := true |});
     (200%N, {| channel := 0; secure := true; allocated := true |})].
Proof. reflexivity. Qed.

Lemma pool_plain_tls_reachable :
  reachable (TryAllocate_lowest 6) pool_plain_tls.
Proof.
  unfold pool_plain_tls. apply reach_create.
  - unfold pool_plain. apply reach_create; [apply reach_new|].
    simpl. tauto.
  - simpl. intros [H | []]. discriminate.
Qed.


(** C5. When the vendor hook rejects the request, [CreateSocket] returns
    [NULL] and the pool after the call is the pool before it, for every
    host, port, secure flag and pool. *)
Theorem CreateSocket_rejected TryAllocateImpl fresh host port tls pool :
  fst (TryAllocateImpl pool (Socket_new tls)) = false ->
  CreateSocket TryAllocateImpl fresh host port tls pool = (None, pool).
Proof.
  intros Hrej. unfold CreateSocket.
  destruct (TryAllocateImpl pool (Socket_new tls)) as [ok sock].
  simpl in Hrej. subst ok. reflexivity.
Qed.

(** When the hook accepts, the new socket is linked last, allocated, and its
    address is returned. *)
Lemma CreateSocket_accepted TryAllocateImpl fresh host port tls pool sock :
  TryAllocateImpl pool (Socket_new tls) = (true, sock) ->
  CreateSocket TryAllocateImpl fresh host port tls pool
  = (Some fresh, pool ++ [(fresh, set_allocated true sock)]).
Proof. intros Hacc. unfold CreateSocket. rewrite Hacc. reflexivity. Qed.

(** Lookups after a release and after a destruction of the plain socket. *)
Example FindSocket_after_release :
  FindSocket_in (ReleaseSocket 100%N pool_plain_tls) 0 = Some 200%N
  /\ FindSocket_secure_in (ReleaseSocket 100%N pool_plain_tls) 0 false = None
  /\ length (ReleaseSocket 100%N pool_plain_tls) = 2%nat.
Proof. repeat split; reflexivity. Qed.

Example FindSocket_after_destroy :
  FindSocket_in (DestroySocket 100%N pool_plain_tls) 0 = Some 200%N
  /\ FindSocket_secure_in (DestroySocket 100%N pool_plain_tls) 0 false = None
  /\ length (DestroySocket 100%N pool_plain_tls) = 1%nat.
Proof. repeat split; reflexivity. Qed.

End PoolClaims.


(** ** Closed instances *)

Section Instances.

Lemma NextAT_owner_only_sample :
  atTask sample_locked = Some 7%N
  /\ (exists m', NextATTimeout (K := sample_kernel) 7%N (ST_Relative 2000) sample_locked = Some (false, m')
                 /\ atNextTimeout (K := sample_kernel) m' = ST_Relative 2000)
  /\ NextATTimeout (K := sample_kernel) 8%N (ST_Relative 2000) sample_locked = None.
Proof.
  destruct (NextAT_owner_only (K := sample_kernel) 7%N sample_locked) as [_ Hown].
  destruct (Hown eq_refl) as [Ht _].
  destruct (Ht (ST_Relative 2000)) as [m' [Hrun [Hval _]]].
  split; [reflexivity|]. split; [exists m'; auto|].
  destruct (NextAT_owner_only (K := sample_kernel) 8%N sample_locked) as [Hother _].
  apply Hother. discriminate.
Defined.

Lemma ATResult_ATComplete_sample :
  atResult sample_locked = AT_Pending
  /\ exists m', ATComplete sample_locked = Some (tt, m') /\ atResult m' = AT_OK.
Proof.
  destruct (ATResult_ATComplete (K := sample_kernel)) as [_ [_ [_ [_ H]]]].
  destruct (H sample_locked) as [_ Hp].
  destruct (Hp eq_refl) as [m' [Hrun [Hval _]]].
  split; [reflexivity|]. exists m'; auto.
Defined.

Lemma FindSocket_allocated_sample :
  NoDup (map fst (sockets sample_locked))
  /\ FindSocket sample_locked 0 = Some 100%N
  /\ FindSocket_secure sample_locked 0 true = Some 200%N
  /\ IsAllocated {| channel := 0; secure := true; allocated := true |} = true.
Proof.
  assert (Hnd : NoDup (map fst (sockets sample_locked))).
  { simpl. repeat constructor; simpl; intuition discriminate. }
  destruct (FindSocket_allocated (K := sample_kernel) sample_locked 0 true)
    as [_ [_ H]].
  destruct (H Hnd 200%N {| channel := 0; secure := true; allocated := true |})
    as [_ Hsec].
  { simpl. auto. }
  destruct (Hsec eq_refl) as [Ha _].
  split; [exact Hnd|]. split; [reflexivity|]. split; [reflexivity|].
  exact Ha.
Defined.


(** [CreateSocket("example.com", 443, true)] on a modem with one channel per
    security flag whose secure channel is taken. *)
Lemma CreateSocket_rejected_sample :
  fst (TryAllocate_lowest 1 pool_plain_tls (Socket_new true)) = false
  /\ CreateSocket (TryAllocate_lowest 1) 300%N example_host 443 true pool_plain_tls
     = (None, pool_plain_tls).
Proof.
  split; [reflexivity|].
  apply (CreateSocket_rejected (TryAllocate_lowest 1) 300%N example_host 443
           true pool_plain_tls).
  reflexivity.
Defined.

Lemma timeouts_independent_sample :
  Timeout_IsRelative (Kernel := sample_kernel) (ST_Relative 7000) = true
  /\ exists m', set_ATTimeout (K := sample_kernel) (ST_Relative 7000) sample_modem = Some (tt, m')
                /\ ATTimeout (K := sample_kernel) m' = ST_Relative 7000
                /\ ConnectTimeout (K := sample_kernel) m' = ST_Relative 30000.
Proof.
  split; [reflexivity|].
  destruct (timeouts_independent (K := sample_kernel) (ST_Relative 7000)
              sample_modem eq_refl) as [[m' [Hrun [Hget [Hconn _]]]] _].
  exists m'. auto.
Defined.

End Instances.

(** ** NetworkInfo: ranges, comparison, reconstruction *)

Section NetworkInfoMore.
Import NetInfo.

Lemma load_range off w word : 0 <= w -> 0 <= Bitfield.load off w word < 2 ^ w.
Proof.
  intros Hw. unfold Bitfield.load. rewrite Z.land_ones by lia.
  apply Z.mod_pos_bound. apply Z.pow_pos_nonneg; lia.
Qed.

(** A store sees only the low [w] bits of the value. *)
Lemma store_mod off w v word :
  0 <= w -> Bitfield.store off w v word = Bitfield.store off w (v mod 2 ^ w) word.
Proof.
  intros Hw. unfold Bitfield.store.
  rewrite !Z.land_ones by lia. rewrite Z.mod_mod; [reflexivity|].
  apply Z.pow_nonzero; lia.
Qed.

(** X1. Whatever the word holds, [Mcc()] and [Mnc()] return a value below
    1024 and [MncDigits()] a value below 16, none negative. *)
Theorem NetworkInfo_accessor_ranges (n : NetworkInfo) :
  0 <= Mcc n < 1024 /\ 0 <= Mnc n < 1024 /\ 0 <= MncDigits n < 16.
Proof.
  unfold Mcc, Mnc, MncDigits.
  pose proof (load_range mcc_off mcc_bits (raw n)) as H1.
  pose proof (load_range mnc_off mnc_bits (raw n)) as H2.
  pose proof (load_range mncDigits_off mncDigits_bits (raw n)) as H3.
  unfold mcc_bits, mnc_bits, mncDigits_bits in *.
  change (2 ^ 10) with 1024 in *. change (2 ^ 4) with 16 in *.
  repeat split; lia.
Qed.

(** X2. Two values constructed over the same storage are the same word
    exactly when their country codes agree modulo 1024, their network codes
    agree modulo 1024 and their digit counts agree modulo 16. *)
Theorem NetworkInfo_compare w0 mcc mnc digits mcc' mnc' digits' :
  init_fields w0 mcc mnc digits = init_fields w0 mcc' mnc' digits'
  <-> (mcc mod 2 ^ 10 = mcc' mod 2 ^ 10
       /\ mnc mod 2 ^ 10 = mnc' mod 2 ^ 10
       /\ digits mod 2 ^ 4 = digits' mod 2 ^ 4).
Proof.
  split.
  - intros E.
    pose proof (f_equal Mcc E) as E1. rewrite !Mcc_init_fields in E1.
    pose proof (f_equal Mnc E) as E2. rewrite !Mnc_init_fields in E2.
    pose proof (f_equal MncDigits E) as E3. rewrite !MncDigits_init_fields in E3.
    auto.
  - intros [E1 [E2 E3]]. unfold init_fields. f_equal.
    rewrite (store_mod mncDigits_off mncDigits_bits digits) by (unfold mncDigits_bits; lia).
    rewrite (store_mod mncDigits_off mncDigits_bits digits') by (unfold mncDigits_bits; lia).
    rewrite (store_mod mnc_off mnc_bits mnc) by (unfold mnc_bits; lia).
    rewrite (store_mod mnc_off mnc_bits mnc') by (unfold mnc_bits; lia).
    rewrite (store_mod mcc_off mcc_bits mcc) by (unfold mcc_bits; lia).
    rewrite (store_mod mcc_off mcc_bits mcc') by (unfold mcc_bits; lia).
    unfold mcc_bits, mnc_bits, mncDigits_bits.
    rewrite E1, E2, E3. reflexivity.
Qed.

Lemma rebuild_bits base word i :
  0 <= i ->
  Z.testbit
    (Bitfield.store 20 4 (Bitfield.load 20 4 word)
       (Bitfield.store 10 10 (Bitfield.load 10 10 word)
          (Bitfield.store 0 10 (Bitfield.load 0 10 word) base))) i
  = if i <? 24 then Z.testbit word i else Z.testbit base i.
Proof.
  intros Hi.
  rewrite !BitfieldFacts.testbit_store by lia.
  destruct (Z.ltb_spec i 24) as [Hlt | Hge];
    destruct (Z.leb_spec 20 i) as [H20 | H20];
    destruct (Z.ltb_spec i (20 + 4)) as [H24 | H24];
    destruct (Z.leb_spec 10 i) as [H10 | H10];
    destruct (Z.ltb_spec i (10 + 10)) as [H20' | H20'];
    destruct (Z.leb_spec 0 i) as [H0 | H0];
    destruct (Z.ltb_spec i (0 + 10)) as [H10' | H10'];
    simpl; try lia; try reflexivity.
  - rewrite BitfieldFacts.testbit_load by lia.
    replace (i - 20 + 20) with i by lia.
    replace (i - 20 <? 4) with true by (symmetry; apply Z.ltb_lt; lia).
    apply andb_true_r.
  - rewrite BitfieldFacts.testbit_load by lia.
    replace (i - 10 + 10) with i by lia.
    replace (i - 10 <? 10) with true by (symmetry; apply Z.ltb_lt; lia).
    apply andb_true_r.
  - rewrite BitfieldFacts.testbit_load by lia.
    replace (i - 0 + 0) with i by lia.
    replace (i - 0 <? 10) with true by (symmetry; apply Z.ltb_lt; lia).
    apply andb_true_r.
Qed.


(** Over storage with the top byte set, [NetworkInfo(0, 0, 0)] is not the
    word of the default value, though every accessor reads 0 on both. *)
Example NetworkInfo_dirty_storage :
  raw (init_fields 4294967295 0 0 0) = 4278190080
  /\ Mcc (init_fields 4294967295 0 0 0) = 0
  /\ Mnc (init_fields 4294967295 0 0 0) = 0
  /\ MncDigits (init_fields 4294967295 0 0 0) = 0
  /\ raw default = 0.
Proof. repeat split; reflexivity. Qed.

End NetworkInfoMore.

(** ** Modem: the remaining inline members *)

Section ModemMore.
Context {K : Kernel}.

Ltac frame :=
  let f := fresh "f" in
  let Hf := fresh "Hf" in
  intros f Hf; destruct f; try reflexivity;
  exfalso; apply Hf; simpl; tauto.

(** X4. The six protected setters ([ModemStatus], [GsmStatus], [SimStatus],
    [TcpStatus], [NetworkInfo], [Rssi]) accept every argument without an
    assertion; afterwards the matching getter returns the argument and no
    other member has changed. *)
Theorem status_setters (m : Modem) :
  (forall v, exists m', set_ModemStatus v m = Some (tt, m')
        /\ get_ModemStatus m' = v /\ unchanged_except [M_modemStatus] m m')
  /\ (forall v, exists m', set_GsmStatus v m = Some (tt, m')
        /\ get_GsmStatus m' = v /\ unchanged_except [M_gsmStatus] m m')
  /\ (forall v, exists m', set_SimStatus v m = Some (tt, m')
        /\ get_SimStatus m' = v /\ unchanged_except [M_simStatus] m m')
  /\ (forall v, exists m', set_TcpStatus v m = Some (tt, m')
        /\ get_TcpStatus m' = v /\ unchanged_except [M_tcpStatus] m m')
  /\ (forall v, exists m', set_NetworkInfo v m = Some (tt, m')
        /\ get_NetworkInfo m' = v /\ unchanged_except [M_netInfo] m m')
  /\ (forall v, exists m', set_Rssi v m = Some (tt, m')
        /\ Rssi m' = v /\ unchanged_except [M_rssi] m m').
Proof.
  repeat split; intros v; eexists; (split; [reflexivity|]);
    (split; [reflexivity|]); frame.
Qed.

(** X5. [ReceiveForSocket(sock, len)] records the socket and the length and
    changes nothing else, and a second call replaces both;
    [RequestProcessing()] sets the flag, changes nothing else and is
    idempotent. Neither asserts anything. *)
Theorem ReceiveForSocket_RequestProcessing (m : Modem) :
  (forall sock len, exists m',
      ReceiveForSocket sock len m = Some (tt, m')
      /\ rxSock m' = sock /\ rxLen m' = len
      /\ unchanged_except [M_rxSock; M_rxLen] m m')
  /\ (forall sock1 len1 sock2 len2,
      (ReceiveForSocket sock1 len1 ;; ReceiveForSocket sock2 len2) m
      = ReceiveForSocket sock2 len2 m)
  /\ (exists m', RequestProcessing m = Some (tt, m')
      /\ process m' = true /\ unchanged_except [M_process] m m')
  /\ (RequestProcessing ;; RequestProcessing) m = RequestProcessing m.
Proof.
  split; [|split; [|split]].
  - intros sock len. eexists. split; [reflexivity|].
    split; [reflexivity|]. split; [reflexivity|]. frame.
  - reflexivity.
  - eexists. split; [reflexivity|]. split; [reflexivity|]. frame.
  - reflexivity.
Qed.

(** X6. [IsActive()] is bit 0 of [signals]. Setting or clearing
    [RxTaskActive], [NetworkActive] or [ATLock] does not change it; setting
    [TaskActive] makes it true and clearing [TaskActive] makes it false. *)
Theorem IsActive_bit0 (m m' : Modem) :
  IsActive m = Z.testbit (signals m) 0
  /\ (forall flag,
        In flag [Signal.RxTaskActive; Signal.NetworkActive; Signal.ATLock] ->
        signals m' = Z.lor (signals m) flag
        \/ signals m' = Z.land (signals m) (Z.lnot flag) ->
        IsActive m' = IsActive m)
  /\ (signals m' = Z.lor (signals m) Signal.TaskActive -> IsActive m' = true)
  /\ (signals m' = Z.land (signals m) (Z.lnot Signal.TaskActive) ->
      IsActive m' = false).
Proof.
  assert (Hbit : forall x : Modem, IsActive x = Z.testbit (signals x) 0).
  { intros x. unfold IsActive.
    change Signal.TaskActive with (Z.ones 1).
    rewrite Z.land_ones by lia. change (2 ^ 1) with 2.
    rewrite Z.bit0_odd, Zmod_odd.
    destruct (Z.odd (signals x)); reflexivity. }
  split; [apply Hbit|]. split; [|split].
  - intros flag Hin Hsig. rewrite !Hbit.
    assert (Hf : Z.testbit flag 0 = false).
    { simpl in Hin. destruct Hin as [H | [H | [H | []]]]; subst flag; reflexivity. }
    destruct Hsig as [-> | ->].
    + rewrite Z.lor_spec, Hf. apply orb_false_r.
    + rewrite Z.land_spec, Z.lnot_spec, Hf by lia. apply andb_true_r.
  - intros Hs. rewrite Hbit, Hs, Z.lor_spec. apply orb_true_r.
  - intros Hs. rewrite Hbit, Hs, Z.land_spec, Z.lnot_spec by lia.
    apply andb_false_r.
Qed.

(** X7. Once [ATComplete] has run the result is no longer pending, so a
    second [ATComplete] always stops at its assertion; the lock owner is not
    consulted and not changed. *)
Theorem ATComplete_once (m : Modem) :
  (ATComplete ;; ATComplete) m = None
  /\ (forall m', ATComplete m = Some (tt, m') ->
        ATResult_is_pending (atResult m') = false
        /\ ATComplete m' = None
        /\ atTask m' = atTask m).
Proof.
  split.
  - unfold ATComplete, bind, ASSERT, assign. simpl.
    destruct (ATResult_eqb (atResult m) AT_Pending); reflexivity.
  - intros m'. unfold ATComplete, bind, ASSERT, assign. simpl.
    destruct (ATResult_eqb (atResult m) AT_Pending); intros H; [|discriminate].
    inversion H; subst m'. repeat split.
Qed.

(** X8. A modem just constructed has no lock owner, no pending call and no
    socket: for every task and argument the three [NextAT...] functions and
    [ATComplete] stop at their assertion, and both [FindSocket] overloads
    return [NULL] for every channel. *)
Theorem Modem_new_edge pipe_rx pipe_tx opts u :
  (forall cur timeout,
      NextATTimeout cur timeout (Modem_new pipe_rx pipe_tx opts u) = None)
  /\ (forall cur handler,
      NextATResponse cur handler (Modem_new pipe_rx pipe_tx opts u) = None)
  /\ (forall cur sock len,
      NextATTransmit cur sock len (Modem_new pipe_rx pipe_tx opts u) = None)
  /\ ATComplete (Modem_new pipe_rx pipe_tx opts u) = None
  /\ (forall chan, FindSocket (Modem_new pipe_rx pipe_tx opts u) chan = None)
  /\ (forall chan sec,
      FindSocket_secure (Modem_new pipe_rx pipe_tx opts u) chan sec = None).
Proof. repeat split. Qed.

End ModemMore.

(** ** Modem: sequences of inline calls *)

Section ModemSequences.
Context {K : Kernel}.

Ltac frame :=
  let f := fresh "f" in
  let Hf := fresh "Hf" in
  intros f Hf; destruct f; try reflexivity;
  exfalso; apply Hf; simpl; tauto.

Lemma TimeoutKind_eqb_eq a b : TimeoutKind_eqb a b = true <-> a = b.
Proof. destruct a, b; simpl; split; intros H; try reflexivity; discriminate. Qed.

Lemma set_timeout_relative k timeout (m : Modem) :
  Timeout_IsRelative timeout = true ->
  exists m', set_timeout k timeout m = Some (tt, m')
    /\ (forall k', get_timeout k' m'
                   = if TimeoutKind_eqb k' k then timeout else get_timeout k' m)
    /\ unchanged_except timeout_members m m'.
Proof.
  intros Hrel.
  destruct k; simpl;
    unfold set_ATTimeout, set_ConnectTimeout, set_DisconnectTimeout,
      set_PowerOffTimeout;
    rewrite ASSERT_holds by exact Hrel;
    eexists; (split; [reflexivity|]);
    (split; [intros k'; destruct k'; reflexivity | frame]).
Qed.

Lemma set_timeout_absolute k timeout (m : Modem) :
  Timeout_IsRelative timeout = false -> set_timeout k timeout m = None.
Proof.
  intros Habs. destruct k; simpl; apply ASSERT_fails; exact Habs.
Qed.

Lemma set_timeouts_relative calls : forall m : Modem,
  forallb (fun c => Timeout_IsRelative (snd c)) calls = true ->
  exists m', set_timeouts calls m = Some (tt, m')
    /\ (forall k, get_timeout k m'
                  = match last_set k calls with
                    | Some timeout => timeout
                    | None => get_timeout k m
                    end)
    /\ unchanged_except timeout_members m m'.
Proof.
  induction calls as [|[k timeout] rest IH]; intros m Hall.
  - exists m. split; [reflexivity|]. split; [reflexivity|].
    intros f _. reflexivity.
  - simpl in Hall. apply andb_true_iff in Hall as [Hrel Hrest].
    destruct (set_timeout_relative k timeout m Hrel) as [m1 [Hrun [Hget Hframe]]].
    destruct (IH m1 Hrest) as [m' [Hrun' [Hget' Hframe']]].
    exists m'. split; [|split].
    + simpl. unfold bind. rewrite Hrun. exact Hrun'.
    + intros k'. rewrite Hget'. simpl.
      destruct (last_set k' rest); [reflexivity|]. rewrite Hget.
      destruct (TimeoutKind_eqb k' k); reflexivity.
    + intros f Hf. rewrite (Hframe' f Hf). apply Hframe. exact Hf.
Qed.

Lemma set_timeouts_absolute calls : forall m : Modem,
  forallb (fun c => Timeout_IsRelative (snd c)) calls = false ->
  set_timeouts calls m = None.
Proof.
  induction calls as [|[k timeout] rest IH]; intros m Hsome.
  - discriminate.
  - simpl in Hsome. simpl. unfold bind.
    destruct (Timeout_IsRelative timeout) eqn:Hrel.
    + destruct (set_timeout_relative k timeout m Hrel) as [m1 [Hrun _]].
      rewrite Hrun. apply IH. exact Hsome.
    + rewrite (set_timeout_absolute k timeout m Hrel). reflexivity.
Qed.

(** X9. A sequence of calls to the four timeout setters succeeds exactly
    when every argument is relative. Then each getter returns the argument of
    the last call to its own setter, or what it returned before when there
    was none, and only the four timeouts have changed. When some argument
    is not relative the sequence stops at an assertion. *)
Theorem set_timeouts_last_wins calls (m : Modem) :
  (forallb (fun c => Timeout_IsRelative (snd c)) calls = true ->
   exists m', set_timeouts calls m = Some (tt, m')
     /\ (forall k, get_timeout k m'
                   = match last_set k calls with
                     | Some timeout => timeout
                     | None => get_timeout k m
                     end)
     /\ unchanged_except
          [M_atTimeout; M_connectTimeout; M_disconnectTimeout; M_powerOffTimeout]
          m m')
  /\ (forallb (fun c => Timeout_IsRelative (snd c)) calls = false ->
      set_timeouts calls m = None).
Proof.
  split.
  - apply set_timeouts_relative.
  - apply set_timeouts_absolute.
Qed.

Lemma configure_owner cur c (m : Modem) :
  atTask m = Some cur ->
  exists m', configure cur c m = Some (false, m')
    /\ atTask m' = Some cur
    /\ unchanged_except config_members m m'.
Proof.
  intros Hown. pose proof Hown as Hcond. apply ptr_eqb_eq in Hcond.
  destruct c; simpl;
    unfold NextATTimeout, NextATResponse, NextATTransmit;
    rewrite ASSERT_holds by exact Hcond;
    eexists; (split; [reflexivity|]); (split; [exact Hown | frame]).
Qed.

Lemma configure_other cur c (m : Modem) :
  atTask m <> Some cur -> configure cur c m = None.
Proof.
  intros Hne. apply ptr_eqb_neq in Hne.
  destruct c; simpl; apply ASSERT_fails; exact Hne.
Qed.

Lemma chain_runs cur cs command : forall m : Modem,
  atTask m = Some cur ->
  exists m', chain cur cs command m = command m'
    /\ atTask m' = Some cur
    /\ unchanged_except config_members m m'.
Proof.
  induction cs as [|c rest IH]; intros m Hown.
  - exists m. split; [reflexivity|]. split; [exact Hown|].
    intros f _. reflexivity.
  - destruct (configure_owner cur c m Hown) as [m1 [Hrun [Hown1 Hframe]]].
    destruct (IH m1 Hown1) as [m' [Hrun' [Hown' Hframe']]].
    exists m'. split; [|split].
    + simpl. unfold orelse, bind. rewrite Hrun. exact Hrun'.
    + exact Hown'.
    + intros f Hf. rewrite (Hframe' f Hf). apply Hframe. exact Hf.
Qed.

(** X10. For the lock owner, [c1 || ... || cn || command] over the three
    configuration functions always reaches [command]: every configuration
    call returns false, the owner stays recorded, and only the four
    next-call members differ when [command] starts. Written as timeout,
    response, transmit, [command] starts with exactly those four values
    set. For any other task a non-empty chain stops at the first
    assertion and [command] is not run. *)
Theorem chain_reaches_command cur cs command (m : Modem) :
  (atTask m = Some cur ->
   exists m', chain cur cs command m = command m'
     /\ atTask m' = Some cur
     /\ unchanged_except
          [M_atNextTimeout; M_atResponse; M_atTransmitSock; M_atTransmitLen]
          m m')
  /\ (atTask m = Some cur ->
      forall timeout handler sock len, exists m',
        chain cur [CfgTimeout timeout; CfgResponse handler; CfgTransmit sock len]
              command m = command m'
        /\ atNextTimeout m' = timeout /\ atResponse m' = handler
        /\ atTransmitSock m' = Some sock /\ atTransmitLen m' = len
        /\ unchanged_except
             [M_atNextTimeout; M_atResponse; M_atTransmitSock; M_atTransmitLen]
             m m')
  /\ (atTask m <> Some cur -> cs <> [] -> chain cur cs command m = None).
Proof.
  split; [|split].
  - apply chain_runs.
  - intros Hown timeout handler sock len.
    apply ptr_eqb_eq in Hown.
    exists (set_atTransmitLen len (set_atTransmitSock (Some sock)
              (set_atResponse handler (set_atNextTimeout timeout m)))).
    split.
    + simpl. unfold orelse, bind, NextATTimeout, NextATResponse,
        NextATTransmit, bind, ASSERT, assign, ret.
      rewrite Hown.
      change (atTask (set_atNextTimeout timeout m)) with (atTask m).
      rewrite Hown.
      change (atTask (set_atResponse handler (set_atNextTimeout timeout m)))
        with (atTask m).
      rewrite Hown. reflexivity.
    + repeat (split; [reflexivity|]). frame.
  - intros Hne Hcs. destruct cs as [|c rest]; [contradiction|].
    simpl. unfold orelse, bind. rewrite (configure_other cur c m Hne).
    reflexivity.
Qed.

Lemma exec_keeps cur op (m m' : Modem) :
  exec cur op m = Some (tt, m') -> unchanged_except written_members m m'.
Proof.
  destruct op; simpl;
    unfold set_ATTimeout, set_ConnectTimeout, set_DisconnectTimeout,
      set_PowerOffTimeout, discard, NextATTimeout, NextATResponse,
      NextATTransmit, ATComplete, ReceiveForSocket, set_ModemStatus,
      set_GsmStatus, set_SimStatus, set_TcpStatus, set_NetworkInfo, set_Rssi,
      RequestProcessing, bind, ASSERT, assign, ret;
    try (destruct h; simpl; unfold async_def_return, ret);
    repeat match goal with
           | |- context [if ?c then _ else _] => destruct c
           end;
    intros H; try discriminate; inversion H; subst; frame.
Qed.

Lemma exec_all_keeps cur ops : forall m m' : Modem,
  exec_all cur ops m = Some (tt, m') -> unchanged_except written_members m m'.
Proof.
  induction ops as [|op rest IH]; intros m m' H.
  - inversion H; subst. intros f _. reflexivity.
  - simpl in H. unfold bind in H.
    destruct (exec cur op m) as [[[] m1]|] eqn:E; [|discriminate].
    intros f Hf. rewrite (IH m1 m' H f Hf).
    apply (exec_keeps cur op m m1 E). exact Hf.
Qed.

(** X11. No sequence of the header's inline writers, run by any task,
    changes the pipe ends, the options reference, the linked sockets, the
    signal flags, the line position and iterator, or the lock owner; so
    [IsActive()] and both [FindSocket] overloads answer as before. *)
Theorem inline_writers_keep cur ops (m m' : Modem) :
  exec_all cur ops m = Some (tt, m') ->
  rx m' = rx m /\ tx m' = tx m /\ options m' = options m
  /\ sockets m' = sockets m /\ signals m' = signals m
  /\ lineEnd m' = lineEnd m /\ lineFields m' = lineFields m
  /\ atTask m' = atTask m
  /\ IsActive m' = IsActive m
  /\ (forall chan, FindSocket m' chan = FindSocket m chan)
  /\ (forall chan sec, FindSocket_secure m' chan sec = FindSocket_secure m chan sec).
Proof.
  intros H. pose proof (exec_all_keeps cur ops m m' H) as Hk.
  assert (Hview : forall f, In f [M_rx; M_tx; M_options; M_sockets; M_signals;
                                  M_lineEnd; M_lineFields; M_atTask] ->
                            member_view f m' = member_view f m).
  { intros f Hin. apply Hk. intros Hw.
    simpl in Hin. unfold written_members in Hw. simpl in Hw.
    repeat (destruct Hin as [<- | Hin];
            [intuition discriminate|]).
    contradiction. }
  assert (Hrx := Hview M_rx ltac:(simpl; tauto)).
  assert (Htx := Hview M_tx ltac:(simpl; tauto)).
  assert (Hop := Hview M_options ltac:(simpl; tauto)).
  assert (Hso := Hview M_sockets ltac:(simpl; tauto)).
  assert (Hsi := Hview M_signals ltac:(simpl; tauto)).
  assert (Hle := Hview M_lineEnd ltac:(simpl; tauto)).
  assert (Hlf := Hview M_lineFields ltac:(simpl; tauto)).
  assert (Hat := Hview M_atTask ltac:(simpl; tauto)).
  simpl in Hrx, Htx, Hop, Hso, Hsi, Hle, Hlf, Hat.
  inversion Hrx. inversion Htx. inversion Hop. inversion Hso.
  inversion Hsi. inversion Hle. inversion Hlf. inversion Hat.
  unfold IsActive, FindSocket, FindSocket_secure.
  repeat split; congruence.
Qed.

End ModemSequences.

(** ** Socket lookup: which socket is found *)

Section LookupMore.

Lemma FindSocket_in_cons p s rest chan :
  FindSocket_in ((p, s) :: rest) chan
  = if matches chan s then Some p else FindSocket_in rest chan.
Proof. reflexivity. Qed.

Lemma FindSocket_secure_in_cons p s rest chan sec :
  FindSocket_secure_in ((p, s) :: rest) chan sec
  = if matches_secure chan sec s then Some p
    else FindSocket_secure_in rest chan sec.
Proof. reflexivity. Qed.

Lemma FindSocket_in_none_iff pool chan :
  FindSocket_in pool chan = None
  <-> forall p s, In (p, s) pool -> matches chan s = false.
Proof.
  induction pool as [|[q s0] rest IH]; [simpl; tauto|].
  rewrite FindSocket_in_cons. split.
  - destruct (matches chan s0) eqn:E; [discriminate|].
    intros H p s [Heq | Hin].
    + inversion Heq; subst. exact E.
    + exact (proj1 IH H p s Hin).
  - intros H. rewrite (H q s0 (or_introl eq_refl)).
    apply (proj2 IH). intros p s Hin. apply (H p s). right. exact Hin.
Qed.

Lemma FindSocket_secure_in_none_iff pool chan sec :
  FindSocket_secure_in pool chan sec = None
  <-> forall p s, In (p, s) pool -> matches_secure chan sec s = false.
Proof.
  induction pool as [|[q s0] rest IH]; [simpl; tauto|].
  rewrite FindSocket_secure_in_cons. split.
  - destruct (matches_secure chan sec s0) eqn:E; [discriminate|].
    intros H p s [Heq | Hin].
    + inversion Heq; subst. exact E.
    + exact (proj1 IH H p s Hin).
  - intros H. rewrite (H q s0 (or_introl eq_refl)).
    apply (proj2 IH). intros p s Hin. apply (H p s). right. exact Hin.
Qed.

Lemma FindSocket_in_first pool chan p :
  FindSocket_in pool chan = Some p ->
  exists pre s post, pool = pre ++ (p, s) :: post
    /\ matches chan s = true
    /\ forall q s', In (q, s') pre -> matches chan s' = false.
Proof.
  induction pool as [|[q s0] rest IH]; [discriminate|].
  rewrite FindSocket_in_cons. destruct (matches chan s0) eqn:E; intros H.
  - inversion H; subst q. exists [], s0, rest.
    split; [reflexivity|]. split; [exact E|]. intros ? ? [].
  - destruct (IH H) as [pre [s [post [Hpool [Hm Hpre]]]]].
    exists ((q, s0) :: pre), s, post.
    split; [simpl; rewrite Hpool; reflexivity|]. split; [exact Hm|].
    intros q' s' [Heq | Hin].
    + inversion Heq; subst. exact E.
    + exact (Hpre q' s' Hin).
Qed.

Lemma FindSocket_secure_in_first pool chan sec p :
  FindSocket_secure_in pool chan sec = Some p ->
  exists pre s post, pool = pre ++ (p, s) :: post
    /\ matches_secure chan sec s = true
    /\ forall q s', In (q, s') pre -> matches_secure chan sec s' = false.
Proof.
  induction pool as [|[q s0] rest IH]; [discriminate|].
  rewrite FindSocket_secure_in_cons.
  destruct (matches_secure chan sec s0) eqn:E; intros H.
  - inversion H; subst q. exists [], s0, rest.
    split; [reflexivity|]. split; [exact E|]. intros ? ? [].
  - destruct (IH H) as [pre [s [post [Hpool [Hm Hpre]]]]].
    exists ((q, s0) :: pre), s, post.
    split; [simpl; rewrite Hpool; reflexivity|]. split; [exact Hm|].
    intros q' s' [Heq | Hin].
    + inversion Heq; subst. exact E.
    + exact (Hpre q' s' Hin).
Qed.

Lemma FindSocket_in_app a b chan :
  FindSocket_in (a ++ b) chan
  = match FindSocket_in a chan with
    | Some p => Some p
    | None => FindSocket_in b chan
    end.
Proof.
  induction a as [|[q s0] rest IH]; [reflexivity|].
  simpl app. rewrite !FindSocket_in_cons.
  destruct (matches chan s0); [reflexivity | exact IH].
Qed.

Lemma FindSocket_secure_in_app a b chan sec :
  FindSocket_secure_in (a ++ b) chan sec
  = match FindSocket_secure_in a chan sec with
    | Some p => Some p
    | None => FindSocket_secure_in b chan sec
    end.
Proof.
  induction a as [|[q s0] rest IH]; [reflexivity|].
  simpl app. rewrite !FindSocket_secure_in_cons.
  destruct (matches_secure chan sec s0); [reflexivity | exact IH].
Qed.

Lemma matches_secure_matches chan sec s :
  matches_secure chan sec s = true -> matches chan s = true.
Proof.
  unfold matches_secure, matches. intros H.
  apply andb_true_iff in H as [H Hc]. apply andb_true_iff in H as [Ha _].
  rewrite Ha, Hc. reflexivity.
Qed.

Lemma matches_matches_secure chan s :
  matches chan s = true -> matches_secure chan (IsSecure s) s = true.
Proof.
  unfold matches_secure, matches. intros H.
  apply andb_true_iff in H as [Ha Hc].
  rewrite Ha, Hc, Bool.eqb_reflx. reflexivity.
Qed.

Lemma FindSocket_in_split pool chan p :
  FindSocket_in pool chan = Some p ->
  FindSocket_secure_in pool chan true = Some p
  \/ FindSocket_secure_in pool chan false = Some p.
Proof.
  induction pool as [|[q s0] rest IH]; [discriminate|].
  rewrite FindSocket_in_cons, !FindSocket_secure_in_cons.
  destruct (matches chan s0) eqn:E; intros H.
  - inversion H; subst q. apply matches_matches_secure in E.
    destruct (IsSecure s0); rewrite E; auto.
  - assert (Hno : forall sec, matches_secure chan sec s0 = false).
    { intros sec. destruct (matches_secure chan sec s0) eqn:Es; [|reflexivity].
      apply matches_secure_matches in Es. congruence. }
    rewrite !Hno. exact (IH H).
Qed.

Context {K : Kernel}.

(** X12. [FindSocket(c)] returns [NULL] exactly when no linked socket is
    allocated with channel [c], and [FindSocket(c, secure)] exactly when no
    linked socket is allocated with channel [c] and that secure flag. *)
Theorem FindSocket_null_iff (m : Modem) (chan : Z) (sec : bool) :
  (FindSocket m chan = None
   <-> forall p s, In (p, s) (sockets m) ->
                   ~ (IsAllocated s = true /\ channel s = chan))
  /\ (FindSocket_secure m chan sec = None
      <-> forall p s, In (p, s) (sockets m) ->
                      ~ (IsAllocated s = true /\ IsSecure s = sec
                         /\ channel s = chan)).
Proof.
  unfold FindSocket, FindSocket_secure.
  rewrite FindSocket_in_none_iff, FindSocket_secure_in_none_iff.
  split; split; intros H p s Hin.
  - intros [Ha Hc]. specialize (H p s Hin). unfold matches in H.
    rewrite Ha in H. apply Z.eqb_eq in Hc. rewrite Hc in H. discriminate.
  - destruct (matches chan s) eqn:E; [|reflexivity].
    exfalso. apply (H p s Hin). unfold matches in E.
    apply andb_true_iff in E as [Ha Hc]. apply Z.eqb_eq in Hc. auto.
  - intros [Ha [Hs Hc]]. specialize (H p s Hin). unfold matches_secure in H.
    rewrite Ha, Hs, Bool.eqb_reflx in H. apply Z.eqb_eq in Hc.
    rewrite Hc in H. discriminate.
  - destruct (matches_secure chan sec s) eqn:E; [|reflexivity].
    exfalso. apply (H p s Hin). unfold matches_secure in E.
    apply andb_true_iff in E as [E Hc]. apply andb_true_iff in E as [Ha Hs].
    apply Z.eqb_eq in Hc. apply Bool.eqb_prop in Hs. auto.
Qed.

(** X13. Both overloads return the first match in link order: the pool
    splits at the returned socket, which matches, and no socket linked
    before it does. *)
Theorem FindSocket_first_match (m : Modem) (chan : Z) (sec : bool) (p : ptr) :
  (FindSocket m chan = Some p ->
   exists pre s post, sockets m = pre ++ (p, s) :: post
     /\ IsAllocated s = true /\ channel s = chan
     /\ forall q s', In (q, s') pre ->
                     ~ (IsAllocated s' = true /\ channel s' = chan))
  /\ (FindSocket_secure m chan sec = Some p ->
      exists pre s post, sockets m = pre ++ (p, s) :: post
        /\ IsAllocated s = true /\ IsSecure s = sec /\ channel s = chan
        /\ forall q s', In (q, s') pre ->
                        ~ (IsAllocated s' = true /\ IsSecure s' = sec
                           /\ channel s' = chan)).
Proof.
  unfold FindSocket, FindSocket_secure. split; intros H.
  - destruct (FindSocket_in_first _ _ _ H) as [pre [s [post [Hpool [Hm Hpre]]]]].
    exists pre, s, post. unfold matches in Hm.
    apply andb_true_iff in Hm as [Ha Hc]. apply Z.eqb_eq in Hc.
    split; [exact Hpool|]. split; [exact Ha|]. split; [exact Hc|].
    intros q s' Hin [Ha' Hc']. specialize (Hpre q s' Hin).
    unfold matches in Hpre. apply Z.eqb_eq in Hc'.
    rewrite Ha', Hc' in Hpre. discriminate.
  - destruct (FindSocket_secure_in_first _ _ _ _ H)
      as [pre [s [post [Hpool [Hm Hpre]]]]].
    exists pre, s, post. unfold matches_secure in Hm.
    apply andb_true_iff in Hm as [Hm Hc]. apply andb_true_iff in Hm as [Ha Hs].
    apply Z.eqb_eq in Hc. apply Bool.eqb_prop in Hs.
    split; [exact Hpool|]. split; [exact Ha|]. split; [exact Hs|].
    split; [exact Hc|].
    intros q s' Hin [Ha' [Hs' Hc']]. specialize (Hpre q s' Hin).
    unfold matches_secure in Hpre. apply Z.eqb_eq in Hc'.
    rewrite Ha', Hs', Bool.eqb_reflx, Hc' in Hpre. discriminate.
Qed.

(** X14. Over a pool linked as [a] followed by [b], each lookup returns what
    it finds in [a], and looks in [b] only when [a] has no match: a socket
    linked later never hides one linked earlier. *)
Theorem FindSocket_append (a b : Pool) (chan : Z) (sec : bool) :
  FindSocket_in (a ++ b) chan
  = match FindSocket_in a chan with
    | Some p => Some p
    | None => FindSocket_in b chan
    end
  /\ FindSocket_secure_in (a ++ b) chan sec
     = match FindSocket_secure_in a chan sec with
       | Some p => Some p
       | None => FindSocket_secure_in b chan sec
       end.
Proof.
  split; [apply FindSocket_in_app | apply FindSocket_secure_in_app].
Qed.

(** X15. The two overloads agree: [FindSocket(c)] is [NULL] exactly when
    [FindSocket(c, true)] and [FindSocket(c, false)] both are, and a socket
    it returns is the one returned by [FindSocket(c, true)] or by
    [FindSocket(c, false)]. *)
Theorem FindSocket_overloads (m : Modem) (chan : Z) :
  (FindSocket m chan = None
   <-> FindSocket_secure m chan true = None
       /\ FindSocket_secure m chan false = None)
  /\ (forall p, FindSocket m chan = Some p ->
        FindSocket_secure m chan true = Some p
        \/ FindSocket_secure m chan false = Some p).
Proof.
  unfold FindSocket, FindSocket_secure. split.
  - rewrite FindSocket_in_none_iff, !FindSocket_secure_in_none_iff. split.
    + intros H. split; intros p s Hin;
        (destruct (matches_secure chan _ s) eqn:E; [|reflexivity]);
        apply matches_secure_matches in E; rewrite (H p s Hin) in E;
        discriminate.
    + intros [Ht Hf] p s Hin.
      destruct (matches chan s) eqn:E; [|reflexivity].
      apply matches_matches_secure in E.
      destruct (IsSecure s);
        [rewrite (Ht p s Hin) in E | rewrite (Hf p s Hin) in E]; discriminate.
  - intros p. apply FindSocket_in_split.
Qed.

(** X16. When one address alone holds the pair (channel, secure flag) among
    the allocated linked sockets, [FindSocket(c, secure)] returns that
    address, wherever in the list it is linked. *)
Theorem FindSocket_secure_finds (m : Modem) (chan : Z) (sec : bool)
    (p : ptr) (s : Socket) :
  In (p, s) (sockets m) ->
  IsAllocated s = true -> IsSecure s = sec -> channel s = chan ->
  (forall q s', In (q, s') (sockets m) ->
     IsAllocated s' = true -> IsSecure s' = sec -> channel s' = chan -> q = p) ->
  FindSocket_secure m chan sec = Some p.
Proof.
  intros Hin Ha Hs Hc Honly. unfold FindSocket_secure.
  destruct (FindSocket_secure_in (sockets m) chan sec) as [q|] eqn:E.
  - destruct (FindSocket_secure_in_sound _ _ _ _ E) as [s' [Hin' [Ha' [Hs' Hc']]]].
    rewrite (Honly q s' Hin' Ha' Hs' Hc'). reflexivity.
  - exfalso.
    pose proof (proj1 (FindSocket_secure_in_none_iff _ _ _) E p s Hin) as Hm.
    unfold matches_secure in Hm. apply Z.eqb_eq in Hc.
    rewrite Ha, Hs, Bool.eqb_reflx, Hc in Hm. discriminate.
Qed.

Lemma FindSocket_in_filter (keep : ptr * Socket -> bool) pool chan :
  (forall n, In n pool -> matches chan (snd n) = true -> keep n = true) ->
  FindSocket_in (filter keep pool) chan = FindSocket_in pool chan.
Proof.
  induction pool as [|[q s0] rest IH]; intros Hk; [reflexivity|].
  simpl filter. rewrite FindSocket_in_cons.
  destruct (matches chan s0) eqn:E.
  - rewrite (Hk (q, s0) (or_introl eq_refl) E).
    rewrite FindSocket_in_cons, E. reflexivity.
  - assert (Hrest : FindSocket_in (filter keep rest) chan
                    = FindSocket_in rest chan).
    { apply IH. intros n Hin. apply Hk. right. exact Hin. }
    destruct (keep (q, s0)); [rewrite FindSocket_in_cons, E|]; exact Hrest.
Qed.

Lemma FindSocket_secure_in_filter (keep : ptr * Socket -> bool) pool chan sec :
  (forall n, In n pool -> matches_secure chan sec (snd n) = true ->
             keep n = true) ->
  FindSocket_secure_in (filter keep pool) chan sec
  = FindSocket_secure_in pool chan sec.
Proof.
  induction pool as [|[q s0] rest IH]; intros Hk; [reflexivity|].
  simpl filter. rewrite FindSocket_secure_in_cons.
  destruct (matches_secure chan sec s0) eqn:E.
  - rewrite (Hk (q, s0) (or_introl eq_refl) E).
    rewrite FindSocket_secure_in_cons, E. reflexivity.
  - assert (Hrest : FindSocket_secure_in (filter keep rest) chan sec
                    = FindSocket_secure_in rest chan sec).
    { apply IH. intros n Hin. apply Hk. right. exact Hin. }
    destruct (keep (q, s0)); [rewrite FindSocket_secure_in_cons, E|];
      exact Hrest.
Qed.

(** X17. Unlinking sockets that do not match leaves a lookup as it was; in
    particular the unallocated sockets of the pool are invisible to both
    overloads. *)
Theorem FindSocket_ignores_unallocated (pool : Pool) (chan : Z) (sec : bool) :
  (forall keep : ptr * Socket -> bool,
      (forall n, In n pool -> matches chan (snd n) = true -> keep n = true) ->
      FindSocket_in (filter keep pool) chan = FindSocket_in pool chan)
  /\ (forall keep : ptr * Socket -> bool,
      (forall n, In n pool -> matches_secure chan sec (snd n) = true ->
                 keep n = true) ->
      FindSocket_secure_in (filter keep pool) chan sec
      = FindSocket_secure_in pool chan sec)
  /\ FindSocket_in (filter (fun n => IsAllocated (snd n)) pool) chan
     = FindSocket_in pool chan
  /\ FindSocket_secure_in (filter (fun n => IsAllocated (snd n)) pool) chan sec
     = FindSocket_secure_in pool chan sec.
Proof.
  split; [intros keep; apply FindSocket_in_filter|].
  split; [intros keep; apply FindSocket_secure_in_filter|].
  split.
  - apply FindSocket_in_filter. intros n _ Hm. unfold matches in Hm.
    apply andb_true_iff in Hm as [Ha _]. exact Ha.
  - apply FindSocket_secure_in_filter. intros n _ Hm.
    unfold matches_secure in Hm.
    apply andb_true_iff in Hm as [Hm _]. apply andb_true_iff in Hm as [Ha _].
    exact Ha.
Qed.

End LookupMore.

(** ** Closed instances of the further properties *)

Section MoreInstances.

Lemma set_timeouts_last_wins_sample :
  exists m',
    set_timeouts (K := sample_kernel)
      [(TK_AT, ST_Relative 1000); (TK_Connect, ST_Infinite);
       (TK_AT, ST_Relative 2000)] sample_modem = Some (tt, m')
    /\ ATTimeout (K := sample_kernel) m' = ST_Relative 2000
    /\ ConnectTimeout (K := sample_kernel) m' = ST_Infinite
    /\ DisconnectTimeout (K := sample_kernel) m' = ST_Relative 10000.
Proof.
  destruct (set_timeouts_last_wins (K := sample_kernel)
              [(TK_AT, ST_Relative 1000); (TK_Connect, ST_Infinite);
               (TK_AT, ST_Relative 2000)] sample_modem) as [Hok _].
  destruct (Hok eq_refl) as [m' [Hrun [Hget _]]].
  exists m'. split; [exact Hrun|].
  split; [exact (Hget TK_AT)|].
  split; [exact (Hget TK_Connect) | exact (Hget TK_Disconnect)].
Defined.

Lemma chain_reaches_command_sample :
  atTask sample_locked = Some 7%N
  /\ exists m',
       chain (K := sample_kernel) 7%N
         [CfgTimeout (K := sample_kernel) (ST_Relative 2000); CfgResponse (K := sample_kernel) 42; CfgTransmit (K := sample_kernel) 200%N 16]
         (ret true) sample_locked = Some (true, m')
       /\ atNextTimeout (K := sample_kernel) m' = ST_Relative 2000
       /\ atTransmitSock (K := sample_kernel) m' = Some 200%N.
Proof.
  split; [reflexivity|].
  destruct (chain_reaches_command (K := sample_kernel) 7%N [] (ret true)
              sample_locked) as [_ [Hthree _]].
  destruct (Hthree eq_refl (ST_Relative 2000) 42 200%N 16)
    as [m' [Hrun [Ht [_ [Hs _]]]]].
  exists m'. split; [exact Hrun|]. split; [exact Ht | exact Hs].
Defined.

Lemma inline_writers_keep_sample :
  exists m',
    exec_all (K := sample_kernel) 7%N
      [I_NextATTimeout (K := sample_kernel) (ST_Relative 2000); I_ATComplete (K := sample_kernel); I_Rssi (K := sample_kernel) (-80);
       I_ATTimeout (K := sample_kernel) (ST_Relative 1000); I_Hook (K := sample_kernel) HPowerOn] sample_locked
    = Some (tt, m')
    /\ sockets m' = pool_plain_tls
    /\ atTask m' = Some 7%N.
Proof.
  eexists. split; [reflexivity|].
  destruct (inline_writers_keep (K := sample_kernel) 7%N
              [I_NextATTimeout (K := sample_kernel) (ST_Relative 2000); I_ATComplete (K := sample_kernel); I_Rssi (K := sample_kernel) (-80);
               I_ATTimeout (K := sample_kernel) (ST_Relative 1000); I_Hook (K := sample_kernel) HPowerOn]
              sample_locked _ eq_refl)
    as [_ [_ [_ [Hs [_ [_ [_ [Ht _]]]]]]]].
  split; [exact Hs | exact Ht].
Defined.

Lemma FindSocket_secure_finds_sample :
  In (200%N, {| channel := 0; secure := true; allocated := true |})
     (sockets sample_locked)
  /\ FindSocket_secure sample_locked 0 true = Some 200%N.
Proof.
  assert (Hin : In (200%N, {| channel := 0; secure := true; allocated := true |})
                   (sockets sample_locked)).
  { simpl. auto. }
  split; [exact Hin|].
  apply (FindSocket_secure_finds (K := sample_kernel) sample_locked 0 true
           200%N {| channel := 0; secure := true; allocated := true |} Hin
           eq_refl eq_refl eq_refl).
  intros q s' [H | [H | []]]; inversion H; subst; simpl; intros;
    [discriminate | reflexivity].
Defined.

End MoreInstances.
